(** * The Linalg [linalg.slice] operation

    A shallow embedding of [examples/Linalg/Linalg1/lib/SliceOp.cpp]: the
    construction ([build]), verification ([verify]), textual parsing
    ([parse]), printing ([print]) and the derived accessors of
    [linalg::SliceOp], followed by the properties its specification states.

    Conventions of the embedding.
    - C++ [unsigned] values are integers in [0, 2^32); arithmetic on them is
      written with its wrap-around ([usub]).
    - A failed [assert], a failed [cast<T>] and an out-of-range access stop
      the program: they are the [AssertionFailure] outcome, which carries the
      place that failed.  Assertions are modelled as enabled.
    - A method called on a null handle (the [getInt()] of an attribute that
      [getAttrOfType] did not find) is no assertion: it is undefined
      behaviour, a crash in practice, and is the [NullDereference] outcome.
    - Code that updates an object through a pointer ([OperationState *result],
      [OpAsmParser *parser], [OpAsmPrinter *p]) is written in a state monad
      over that object.
    - Types are uniqued in the [MLIRContext]; the embedding identifies a
      uniqued type with its structure, so the context carries no data. *)

From Stdlib Require Import ZArith List String DecimalString Bool Lia.
Import ListNotations.

#[local] Open Scope string_scope.
#[local] Open Scope list_scope.
#[local] Open Scope Z_scope.

(* ================================================================= *)
(** ** Outcomes and the execution monad *)

Inductive Outcome (A : Type) : Type :=
| Ret (a : A)
| AssertionFailure (what : string)
| NullDereference (what : string).

Arguments Ret {A} a.
Arguments AssertionFailure {A} what.
Arguments NullDereference {A} what.

(** A computation over a mutable object of type [S]. *)
Definition Exec (S A : Type) : Type := S -> Outcome (A * S).

Definition ret {S A} (a : A) : Exec S A := fun s => Ret (a, s).

Definition bind {S A B} (c : Exec S A) (k : A -> Exec S B) : Exec S B :=
  fun s =>
    match c s with
    | Ret (a, s') => k a s'
    | AssertionFailure what => AssertionFailure what
    | NullDereference what => NullDereference what
    end.

Definition eval {S A} (o : Outcome A) : Exec S A :=
  fun s =>
    match o with
    | Ret a => Ret (a, s)
    | AssertionFailure what => AssertionFailure what
    | NullDereference what => NullDereference what
    end.

(** Sequencing of plain outcomes. *)
Definition andThen {A B} (o : Outcome A) (k : A -> Outcome B) : Outcome B :=
  match o with
  | Ret a => k a
  | AssertionFailure what => AssertionFailure what
  | NullDereference what => NullDereference what
  end.

Definition omap {A B} (f : A -> B) (o : Outcome A) : Outcome B :=
  andThen o (fun a => Ret (f a)).

Definition modify {S} (f : S -> S) : Exec S unit := fun s => Ret (tt, f s).

Declare Scope exec_scope.
Delimit Scope exec_scope with exec.
Notation "x <- c ;; k" := (bind c (fun x => k))
  (at level 61, c at next level, right associativity) : exec_scope.
Notation "c ;; k" := (bind c (fun _ => k))
  (at level 61, right associativity) : exec_scope.
#[local] Open Scope exec_scope.

(** [mlir::LogicalResult] *)
Inductive LogicalResult : Type := success | failure.

(* ================================================================= *)
(** ** Machine integers *)

Definition unsigned_bits : Z := 32.
Definition unsigned_modulus : Z := 2 ^ unsigned_bits.

(** Conversion of an integer to [unsigned]. *)
Definition to_unsigned (z : Z) : Z := z mod unsigned_modulus.

(** [a - b] on [unsigned] operands. *)
Definition usub (a b : Z) : Z := to_unsigned (a - b).

(* ================================================================= *)
(** ** Types of the IR *)

(** [mlir::Type]: the standard types the example uses and the two types of
    the Linalg dialect, [!linalg.range] and [!linalg.view<...>]. *)
Inductive Ty : Type :=
| TyInteger (width : Z)
| TyF32
| TyF64
| TyIndex
| TyRange
| TyView (elementType : Ty) (rank : Z).

Fixpoint Ty_eqb (a b : Ty) : bool :=
  match a, b with
  | TyInteger w, TyInteger w' => w =? w'
  | TyF32, TyF32 => true
  | TyF64, TyF64 => true
  | TyIndex, TyIndex => true
  | TyRange, TyRange => true
  | TyView e r, TyView e' r' => Ty_eqb e e' && (r =? r')
  | _, _ => false
  end.

Definition MLIRContext : Type := unit.

(** [linalg::ViewType] (declared in [linalg1/Types.h]): a handle on a type
    known to be a view, with its element type and its rank. *)
Module ViewType.
Record t : Type := mk { getElementType : Ty; getRank : Z }.

Definition get (_ : MLIRContext) (elementType : Ty) (rank : Z) : t :=
  mk elementType rank.

Definition toType (v : t) : Ty := TyView (getElementType v) (getRank v).

Definition dyn_cast (ty : Ty) : option t :=
  match ty with
  | TyView e r => Some (mk e r)
  | _ => None
  end.

Definition isa (ty : Ty) : bool :=
  match dyn_cast ty with Some _ => true | None => false end.

Definition cast (ty : Ty) : Outcome t :=
  match dyn_cast ty with
  | Some v => Ret v
  | None => AssertionFailure "cast<ViewType>"
  end.

Definition getContext (_ : t) : MLIRContext := tt.
End ViewType.

(** [linalg::RangeType] *)
Module RangeType.
Definition isa (ty : Ty) : bool :=
  match ty with TyRange => true | _ => false end.
End RangeType.

(** [mlir::IndexType] *)
Module IndexType.
Definition isa (ty : Ty) : bool :=
  match ty with TyIndex => true | _ => false end.

Definition cast (ty : Ty) : Outcome unit :=
  if isa ty then Ret tt else AssertionFailure "cast<IndexType>".
End IndexType.

(* ================================================================= *)
(** ** Values, attributes, operation states and operations *)

(** [mlir::Value]: an SSA value, with the name it prints under and its
    type. *)
Module Value.
Record t : Type := mk { name : string; getType : Ty }.
End Value.

(** [mlir::Attribute]: integer attributes (a type and an [int64_t] value) and
    one other kind, so that [getAttrOfType<IntegerAttr>] can miss. *)
Inductive Attribute : Type :=
| IntegerAttr (type : Ty) (value : Z)
| StringAttr (value : string).

Definition NamedAttribute : Type := (string * Attribute)%type.

Definition dyn_cast_IntegerAttr (a : Attribute) : option (Ty * Z) :=
  match a with
  | IntegerAttr ty v => Some (ty, v)
  | StringAttr _ => None
  end.

Fixpoint lookupAttr (attrs : list NamedAttribute) (key : string)
  : option Attribute :=
  match attrs with
  | [] => None
  | (k, a) :: rest => if String.eqb k key then Some a else lookupAttr rest key
  end.

Definition Loc : Type := nat.
Bind Scope nat_scope with Loc.

(** [mlir::OperationState] *)
Module OperationState.
Record t : Type := mk {
  operands : list Value.t;
  types : list Ty;
  attributes : list NamedAttribute
}.

Definition empty : t := mk [] [] [].

Definition addOperands (newOperands : list Value.t) (s : t) : t :=
  mk (operands s ++ newOperands) (types s) (attributes s).

Definition addTypes (newTypes : list Ty) (s : t) : t :=
  mk (operands s) (types s ++ newTypes) (attributes s).

Definition addAttribute (name : string) (attr : Attribute) (s : t) : t :=
  mk (operands s) (types s) (attributes s ++ [(name, attr)]).

Definition setOperands (l : list Value.t) (s : t) : t :=
  mk l (types s) (attributes s).

Definition setTypes (l : list Ty) (s : t) : t :=
  mk (operands s) l (attributes s).

Definition setAttributes (l : list NamedAttribute) (s : t) : t :=
  mk (operands s) (types s) l.
End OperationState.

(** [mlir::Operation]: what an [OperationState] becomes once the operation is
    created. *)
Module Operation.
Record t : Type := mk {
  getLoc : Loc;
  getOperands : list Value.t;
  getAttrs : list NamedAttribute;
  getResultTypes : list Ty
}.

Definition create (loc : Loc) (s : OperationState.t) : t :=
  mk loc (OperationState.operands s) (OperationState.attributes s)
     (OperationState.types s).

Definition getOperand (op : t) (i : nat) : Outcome Value.t :=
  match nth_error (getOperands op) i with
  | Some v => Ret v
  | None => AssertionFailure "getOperand: index out of range"
  end.

Definition getAttr (op : t) (name : string) : option Attribute :=
  lookupAttr (getAttrs op) name.

(** [getAttrOfType<IntegerAttr>(name).getInt()]: when the attribute is
    missing or is not an integer attribute, [getAttrOfType] returns a null
    handle and [getInt()] dereferences it. *)
Definition getIntegerAttrInt (op : t) (name : string) : Outcome Z :=
  match getAttr op name with
  | Some a =>
      match dyn_cast_IntegerAttr a with
      | Some (_, v) => Ret v
      | None => NullDereference "IntegerAttr::getInt on a null attribute"
      end
  | None => NullDereference "IntegerAttr::getInt on a null attribute"
  end.

(** [getType()] of an operation with one result. *)
Definition getType (op : t) : Outcome Ty :=
  match getResultTypes op with
  | [ty] => Ret ty
  | _ => AssertionFailure "getType: operation does not have one result"
  end.
End Operation.

(** [mlir::Builder] *)
Module Builder.
Record t : Type := mk { getContext : MLIRContext }.

Definition getIndexType (_ : t) : Ty := TyIndex.

Definition getIntegerAttr (_ : t) (type : Ty) (value : Z) : Attribute :=
  IntegerAttr type value.
End Builder.

(** The diagnostics engine and the standard-error stream. *)
Record Diagnostic : Type := mkDiagnostic {
  diagLoc : Loc;
  diagMessage : string
}.

Record World : Type := mkWorld {
  diagnostics : list Diagnostic;
  errs : list Ty
}.

Definition emitDiagnostic (loc : Loc) (message : string) (w : World) : World :=
  mkWorld (diagnostics w ++ [mkDiagnostic loc message]) (errs w).

(** [llvm::errs() << type] *)
Definition writeErrs (ty : Ty) (w : World) : World :=
  mkWorld (diagnostics w) (errs w ++ [ty]).

(* ================================================================= *)
(** ** The framework: vectors, the parser interface, the printer *)

(** [llvm::SmallVector]: [front], [back] and [operator[]] assert that the
    element exists. *)
Module SmallVector.
Definition front {A} (l : list A) : Outcome A :=
  match l with
  | x :: _ => Ret x
  | [] => AssertionFailure "SmallVector::front on an empty vector"
  end.

Definition back {A} (l : list A) : Outcome A :=
  match rev l with
  | x :: _ => Ret x
  | [] => AssertionFailure "SmallVector::back on an empty vector"
  end.

Definition index {A} (l : list A) (i : nat) : Outcome A :=
  match nth_error l i with
  | Some x => Ret x
  | None => AssertionFailure "SmallVector::operator[] out of range"
  end.
End SmallVector.

(** [mlir::OpAsmParser] is an abstract class: [SliceOp::parse] reaches the
    text only through its virtual methods.  The methods that consume input or
    resolve names are the fields of [Interface]; a method takes the parser and
    the world and returns them updated.  A method that fills a fresh vector
    returns it ([None] is failure); a method that updates a field of the
    operation state takes the field and returns it. *)
Module OpAsmParser.

(** [OpAsmParser::OperandType]: an operand as written, not yet resolved. *)
Record OperandType : Type := mkOperand { location : Loc; name : string }.

Inductive Delimiter : Type :=
| NoDelimiter | Square.

Class Interface (P : Type) : Type := {
  getNameLoc : P -> Loc;
  parseOperand : P -> World -> option OperandType * P * World;
  parseOperandList :
    Z -> Delimiter -> P -> World -> option (list OperandType) * P * World;
  parseOptionalAttributeDict :
    list NamedAttribute -> P -> World ->
    LogicalResult * list NamedAttribute * P * World;
  parseColonTypeList : P -> World -> option (list Ty) * P * World;
  resolveOperand :
    OperandType -> Ty -> list Value.t -> P -> World ->
    LogicalResult * list Value.t * P * World
}.

(** What [SliceOp::parse] works on: the parser, the operation state it
    fills and the world. *)
Record Env (P : Type) : Type := mkEnv {
  parser : P;
  result : OperationState.t;
  world : World
}.
Arguments mkEnv {P}.
Arguments parser {P}.
Arguments result {P}.
Arguments world {P}.

Section Methods.
Context {P : Type} `{Interface P}.

Definition getNameLocM : Exec (Env P) Loc :=
  fun e => Ret (getNameLoc (parser e), e).

Definition parseOperandM : Exec (Env P) (option OperandType) :=
  fun e =>
    let '(r, p, w) := parseOperand (parser e) (world e) in
    Ret (r, mkEnv p (result e) w).

Definition parseOperandListM (requiredOperandCount : Z) (d : Delimiter)
  : Exec (Env P) (option (list OperandType)) :=
  fun e =>
    let '(r, p, w) :=
      parseOperandList requiredOperandCount d (parser e) (world e) in
    Ret (r, mkEnv p (result e) w).

(** [parseOptionalAttributeDict(result->attributes)] *)
Definition parseOptionalAttributeDictM : Exec (Env P) LogicalResult :=
  fun e =>
    let '(r, attrs, p, w) :=
      parseOptionalAttributeDict
        (OperationState.attributes (result e)) (parser e) (world e) in
    Ret (r, mkEnv p (OperationState.setAttributes attrs (result e)) w).

Definition parseColonTypeListM : Exec (Env P) (option (list Ty)) :=
  fun e =>
    let '(r, p, w) := parseColonTypeList (parser e) (world e) in
    Ret (r, mkEnv p (result e) w).

(** [resolveOperand(operand, type, result->operands)] *)
Definition resolveOperandM (operand : OperandType) (type : Ty)
  : Exec (Env P) LogicalResult :=
  fun e =>
    let '(r, operands, p, w) :=
      resolveOperand operand type
        (OperationState.operands (result e)) (parser e) (world e) in
    Ret (r, mkEnv p (OperationState.setOperands operands (result e)) w).

(** [resolveOperands(operands, type, result->operands)]: every operand
    resolved against the one type, stopping at the first failure. *)
Fixpoint resolveOperandsM (operands : list OperandType) (type : Ty)
  : Exec (Env P) LogicalResult :=
  match operands with
  | [] => ret success
  | operand :: rest =>
      r <- resolveOperandM operand type ;;
      match r with
      | failure => ret failure
      | success => resolveOperandsM rest type
      end
  end.

(** [addTypeToList(type, result->types)] *)
Definition addTypeToList (type : Ty) : Exec (Env P) LogicalResult :=
  modify (fun e =>
            mkEnv (parser e)
              (OperationState.addTypes [type] (result e)) (world e)) ;;
  ret success.

(** [emitError(loc, message)]: reports a located error and converts to
    [failure]. *)
Definition emitError (loc : Loc) (message : string)
  : Exec (Env P) LogicalResult :=
  modify (fun e =>
            mkEnv (parser e) (result e)
              (emitDiagnostic loc message (world e))) ;;
  ret failure.

(** [llvm::errs() << type] *)
Definition writeErrsM (type : Ty) : Exec (Env P) unit :=
  modify (fun e =>
            mkEnv (parser e) (result e) (writeErrs type (world e))).
End Methods.
End OpAsmParser.

(** The text of an operation, as the lexemes the framework's lexer produces.
    A type such as [!linalg.view<?x?xf32>] or [index] is written and read by
    the framework; it is one lexeme here. *)
Inductive Token : Type :=
| tok_bare_identifier (s : string)
| tok_percent_identifier (s : string)
| tok_integer (z : Z)
| tok_string (s : string)
| tok_type (ty : Ty)
| tok_l_square
| tok_r_square
| tok_l_brace
| tok_r_brace
| tok_colon
| tok_comma
| tok_equal.

(** Modelled from the spec: [mlir::OpAsmPrinter] is the framework's output
    stream; what [SliceOp::print] sends to it is appended to the text.  Its
    [printOptionalAttrDict] is the "generic optional-attribute-dict
    mechanism" of the specification: the attributes that are not elided, in
    braces, and nothing when there is none. *)
Module OpAsmPrinter.
Definition t : Type := list Token.

Definition emit (toks : list Token) : Exec t unit :=
  modify (fun out => out ++ toks).

Definition printOperand (v : Value.t) : Exec t unit :=
  emit [tok_percent_identifier (Value.name v)].

Definition printType (ty : Ty) : Exec t unit := emit [tok_type ty].

Definition printInt (z : Z) : Exec t unit := emit [tok_integer z].

(** An integer attribute prints its value, and its type unless it is the
    default [i64]. *)
Definition printAttribute (a : Attribute) : list Token :=
  match a with
  | IntegerAttr (TyInteger 64) v => [tok_integer v]
  | IntegerAttr ty v => [tok_integer v; tok_colon; tok_type ty]
  | StringAttr s => [tok_string s]
  end.

Fixpoint printNamedAttributes (attrs : list NamedAttribute) : list Token :=
  match attrs with
  | [] => []
  | (k, a) :: rest =>
      tok_bare_identifier k :: tok_equal :: printAttribute a
      ++ match rest with
         | [] => []
         | _ :: _ => tok_comma :: printNamedAttributes rest
         end
  end.

Definition isElided (elidedAttrs : list string) (na : NamedAttribute)
  : bool :=
  existsb (String.eqb (fst na)) elidedAttrs.

Definition printOptionalAttrDict (attrs : list NamedAttribute)
    (elidedAttrs : list string) : Exec t unit :=
  match filter (fun na => negb (isElided elidedAttrs na)) attrs with
  | [] => ret tt
  | shown =>
      emit ([tok_l_brace] ++ printNamedAttributes shown ++ [tok_r_brace])
  end.
End OpAsmPrinter.

(* ================================================================= *)
(** ** [linalg::SliceOp] *)

(** Modelled from the spec: [linalg::getViewRank] is declared in
    [linalg1/Analysis.h] and defined outside this file; [build] uses it for
    its "early sanity checks + extract rank", and the specification has
    [build] read "the parent view's rank": it returns the rank of the view's
    type and asserts that the value is a view. *)
Definition getViewRank (view : Value.t) : Outcome Z :=
  match ViewType.dyn_cast (Value.getType view) with
  | Some v => Ret (ViewType.getRank v)
  | None => AssertionFailure "getViewRank: expected a ViewType"
  end.

Module SliceOp.
Import OpAsmParser OpAsmPrinter.

Definition getOperationName : string := "linalg.slice".
Definition getSlicingDimAttrName : string := "dim".

(** Index of the first indexing operand. *)
Definition FirstIndexingOperand : nat := 1.

(** [SliceOp::build(Builder *b, OperationState *result, Value *view,
    Value *indexing, unsigned dim)] *)
Definition build (b : Builder.t) (view indexing : Value.t) (dim : Z)
  : Exec OperationState.t unit :=
  rank <- eval (getViewRank view) ;;
  viewType <- eval (ViewType.cast (Value.getType view)) ;;
  let elementType := ViewType.getElementType viewType in
  modify (OperationState.addOperands [view; indexing]) ;;
  modify (OperationState.addAttribute getSlicingDimAttrName
            (Builder.getIntegerAttr b (Builder.getIndexType b) dim)) ;;
  if RangeType.isa (Value.getType indexing) then
    modify (OperationState.addTypes [ViewType.toType viewType])
  else
    eval (IndexType.cast (Value.getType indexing)) ;;
    modify (OperationState.addTypes
              [ViewType.toType
                 (ViewType.get (Builder.getContext b) elementType
                    (usub rank 1))]).

Definition getParentView (op : Operation.t) : Outcome Value.t :=
  Operation.getOperand op 0.

Definition getIndexing (op : Operation.t) : Outcome Value.t :=
  Operation.getOperand op 1.

Definition getViewType (op : Operation.t) : Outcome ViewType.t :=
  andThen (Operation.getType op) ViewType.cast.

Definition getRank (op : Operation.t) : Outcome Z :=
  omap ViewType.getRank (getViewType op).

Definition getElementType (op : Operation.t) : Outcome Ty :=
  omap ViewType.getElementType (getViewType op).

Definition getParentViewType (op : Operation.t) : Outcome ViewType.t :=
  andThen (getParentView op) (fun v => ViewType.cast (Value.getType v)).

Definition getParentRank (op : Operation.t) : Outcome Z :=
  omap ViewType.getRank (getParentViewType op).

Definition getParentElementType (op : Operation.t) : Outcome Ty :=
  omap ViewType.getElementType (getParentViewType op).

Definition isRankDecreasing (op : Operation.t) : Outcome bool :=
  andThen (getParentRank op) (fun parentRank =>
  omap (fun rank => negb (parentRank =? rank)) (getRank op)).

Definition getIndexings (op : Operation.t) : list Value.t :=
  skipn FirstIndexingOperand (Operation.getOperands op).

(** Modelled from the spec: [getSlicingDim] is declared with the operation
    in [linalg1/Ops.h]; the slicing dimension is the "one integer attribute"
    of the instance, read into the [unsigned dim] of [verify]. *)
Definition getSlicingDim (op : Operation.t) : Outcome Z :=
  omap to_unsigned (Operation.getIntegerAttrInt op getSlicingDimAttrName).

(** [emitOpError(message)]: reports [message] against the operation and
    converts to [failure]. *)
Definition emitOpError (op : Operation.t) (message : string)
  : Exec World LogicalResult :=
  modify (emitDiagnostic (Operation.getLoc op) message) ;;
  ret failure.

Definition msgMissingDim : string := "slice op expects a dim attribute".
Definition msgDimRange : string :=
  "slicing dim must be in the [0 .. parent_rank) range".
Definition msgFirstOperand : string :=
  "first operand must be of ViewType (i.e. a ViewOp or a SliceOp)".
Definition msgSecondOperand : string :=
  "second operand must be of RangeType (i.e. a RangeOp) or IndexType".

(** [SliceOp::verify()] *)
Definition verify (op : Operation.t) : Exec World LogicalResult :=
  match Operation.getAttr op getSlicingDimAttrName with
  | None => emitOpError op msgMissingDim
  | Some _ =>
      dim <- eval (getSlicingDim op) ;;
      parentRank <- eval (getParentRank op) ;;
      if dim >=? parentRank then emitOpError op msgDimRange
      else
        operand0 <- eval (Operation.getOperand op 0) ;;
        if negb (ViewType.isa (Value.getType operand0)) then
          emitOpError op msgFirstOperand
        else
          operand1 <- eval (Operation.getOperand op 1) ;;
          let type := IndexType.isa (Value.getType operand1) in
          let range := RangeType.isa (Value.getType operand1) in
          if negb range && negb type then emitOpError op msgSecondOperand
          else ret success
  end.

(** *** Parsing *)

Definition msgIndexingCount : string := "expected 1 indexing type".
Definition msgViewExpected : string := "view type expected as first type".
Definition msgIndexingType : string :=
  "indexing must be of range or index type".

Section Parse.
Context {P : Type} `{Interface P}.

(** The first statement of [parse]: the chain
    [parseOperand || parseOperandList || parseOptionalAttributeDict ||
    parseColonTypeList] stops at the first call that fails ([None]);
    when all four succeed it has filled [viewInfo], [indexingInfo] and
    [types], and the attributes of the operation state. *)
Definition parseText
  : Exec (Env P) (option (OperandType * list OperandType * list Ty)) :=
  viewInfo' <- parseOperandM ;;
  match viewInfo' with
  | None => ret None
  | Some viewInfo =>
  indexingInfo' <- parseOperandListM 1 Square ;;
  match indexingInfo' with
  | None => ret None
  | Some indexingInfo =>
  attrsResult <- parseOptionalAttributeDictM ;;
  match attrsResult with
  | failure => ret None
  | success =>
  types' <- parseColonTypeListM ;;
  match types' with
  | None => ret None
  | Some types => ret (Some (viewInfo, indexingInfo, types))
  end end end end.

(** The two resolution calls of the last statement of [parse]:
    [resolveOperand(viewInfo, viewType, ...) ||
    resolveOperands(indexingInfo[0], types.back(), ...)]. *)
Definition resolveText (viewInfo : OperandType) (viewType : Ty)
    (indexingInfo : list OperandType) (indexingType : Ty)
  : Exec (Env P) LogicalResult :=
  r1 <- resolveOperandM viewInfo viewType ;;
  match r1 with
  | failure => ret failure
  | success =>
      indexing0 <- eval (SmallVector.index indexingInfo 0) ;;
      resolveOperandsM [indexing0] indexingType
  end.

(** [SliceOp::parse(OpAsmParser *parser, OperationState *result)] *)
Definition parse : Exec (Env P) LogicalResult :=
  text <- parseText ;;
  match text with
  | None => ret failure
  | Some (viewInfo, indexingInfo, types) =>
  nameLoc <- getNameLocM ;;
  if negb (Nat.eqb (List.length indexingInfo) 1) then
    emitError nameLoc msgIndexingCount
  else
    front <- eval (SmallVector.front types) ;;
    match ViewType.dyn_cast front with
    | None => emitError nameLoc msgViewExpected
    | Some viewType =>
        back <- eval (SmallVector.back types) ;;
        let indexType := IndexType.isa back in
        let rangeType := RangeType.isa back in
        if negb indexType && negb rangeType then
          writeErrsM back ;;
          emitError nameLoc msgIndexingType
        else
          let rank := ViewType.getRank viewType in
          let rank := if indexType then usub rank 1 else rank in
          let resultViewType :=
            ViewType.get (ViewType.getContext viewType)
              (ViewType.getElementType viewType) rank in
          resolved <- resolveText viewInfo (ViewType.toType viewType)
                        indexingInfo back ;;
          match resolved with
          | failure => ret failure
          | success => addTypeToList (ViewType.toType resultViewType)
          end
    end
  end.
End Parse.

(** *** Printing *)

(** [SliceOp::print(OpAsmPrinter *p)] *)
Definition print (op : Operation.t) : Exec OpAsmPrinter.t unit :=
  emit [tok_bare_identifier SliceOp.getOperationName] ;;
  parentView <- eval (SliceOp.getParentView op) ;;
  printOperand parentView ;;
  emit [tok_l_square] ;;
  indexing <- eval (SliceOp.getIndexing op) ;;
  printOperand indexing ;;
  emit [tok_r_square] ;;
  emit [tok_l_brace; tok_bare_identifier "dim"; tok_equal] ;;
  dim <- eval (Operation.getIntegerAttrInt op "dim") ;;
  printInt dim ;;
  emit [tok_r_brace] ;;
  printOptionalAttrDict (Operation.getAttrs op) ["dim"] ;;
  emit [tok_colon] ;;
  parentViewType <- eval (SliceOp.getParentViewType op) ;;
  printType (ViewType.toType parentViewType) ;;
  emit [tok_comma] ;;
  indexing' <- eval (SliceOp.getIndexing op) ;;
  printType (Value.getType indexing').

(** The text of an operation: what [print] leaves in an empty stream when it
    runs to its end.  When an accessor stops [print] on the way, the outcome
    tells which one; the lexemes already sent to the stream by then are not
    part of it. *)
Definition printed (op : Operation.t) : Outcome (list Token) :=
  omap snd (print op []).

End SliceOp.

(* ================================================================= *)
(** ** A parser over lexemes *)

(** Modelled from the spec: the framework's parser behind [OpAsmParser] is
    not part of this file.  This instance reads the grammar of the
    specification,
    [<parent-view-operand>[<indexing-operand>] {optional-attr-dict} :
    <parent-view-type>, <indexing-type>], over lexemes.  The list parser is
    passed the number of operands its caller requires (the [1] of
    [parseOperandList(indexingInfo, 1, Square)]; [-1] stands for any number)
    and rejects a list of another length itself, with the error
    "expected <n> operands" located at the start of the list.
    Operands resolve against the values in scope: a name in scope must have
    the type asked for, a name not yet in scope is a forward reference and
    enters the scope with that type. *)
Module TokenParser.
Import OpAsmParser.

Record t : Type := mk {
  input : list Token;
  offset : nat;
  nameLoc : Loc;
  scope : list (string * Ty)
}.

Definition advance (rest : list Token) (pos : nat) (p : t) : t :=
  mk rest pos (nameLoc p) (scope p).

Definition parseOperand (p : t) (w : World)
  : option OperandType * t * World :=
  match input p with
  | tok_percent_identifier s :: rest =>
      (Some (mkOperand (offset p) s), advance rest (S (offset p)) p, w)
  | _ => (None, p, emitDiagnostic (offset p) "expected SSA operand" w)
  end.

(** The entries after the first one: [, operand]*. *)
Fixpoint operandListTail (toks : list Token) (pos : nat)
    (acc : list OperandType)
  : option (list OperandType * list Token * nat) :=
  match toks with
  | tok_comma :: rest =>
      match rest with
      | tok_percent_identifier s :: rest' =>
          operandListTail rest' (S (S pos)) (acc ++ [mkOperand (S pos) s])
      | _ => None
      end
  | _ => Some (acc, toks, pos)
  end.

Definition operandListBody (toks : list Token) (pos : nat)
  : option (list OperandType * list Token * nat) :=
  match toks with
  | tok_percent_identifier s :: rest =>
      operandListTail rest (S pos) [mkOperand pos s]
  | _ => Some ([], toks, pos)
  end.



(** The check of the required count, once the list is read: [startLoc] is
    where the list began. *)
Definition requireOperandCount (requiredOperandCount : Z) (startLoc : Loc)
    (ops : list OperandType) (p : t) (w : World)
  : option (list OperandType) * t * World :=
  if (requiredOperandCount =? -1)
     || (Z.of_nat (List.length ops) =? requiredOperandCount)
  then (Some ops, p, w)
  else
    (None, p,
     emitDiagnostic startLoc
       (String.append "expected "
          (String.append
             (NilZero.string_of_int (Z.to_int requiredOperandCount))
             " operands")) w).

Definition parseOperandList (requiredOperandCount : Z) (d : Delimiter)
    (p : t) (w : World) : option (list OperandType) * t * World :=
  match d with
  | Square =>
      match input p with
      | tok_l_square :: rest =>
          match operandListBody rest (S (offset p)) with
          | Some (ops, tok_r_square :: rest', pos) =>
              requireOperandCount requiredOperandCount (offset p) ops
                (advance rest' (S pos) p) w
          | Some (_, _, pos) =>
              (None, p, emitDiagnostic pos "expected ']' in operand list" w)
          | None =>
              (None, p, emitDiagnostic (offset p) "expected SSA operand" w)
          end
      | _ =>
          (None, p,
           emitDiagnostic (offset p) "expected '[' in operand list" w)
      end
  | NoDelimiter =>
      match operandListBody (input p) (offset p) with
      | Some (ops, rest, pos) =>
          requireOperandCount requiredOperandCount (offset p) ops
            (advance rest pos p) w
      | None =>
          (None, p, emitDiagnostic (offset p) "expected SSA operand" w)
      end
  end.

(** The entries of an attribute dictionary after its opening brace:
    [name = value] separated by commas, up to the closing brace.  A bare
    integer is an [i64] attribute. *)
Fixpoint attributeEntries (toks : list Token) (pos : nat)
    (acc : list NamedAttribute)
  : option (list NamedAttribute * list Token * nat) :=
  match toks with
  | tok_bare_identifier k :: tok_equal :: tok_integer z :: tok_colon
      :: tok_type ty :: tok_comma :: rest =>
      attributeEntries rest (pos + 6) (acc ++ [(k, IntegerAttr ty z)])
  | tok_bare_identifier k :: tok_equal :: tok_integer z :: tok_colon
      :: tok_type ty :: tok_r_brace :: rest =>
      Some (acc ++ [(k, IntegerAttr ty z)], rest, (pos + 6)%nat)
  | tok_bare_identifier k :: tok_equal :: tok_integer z :: tok_comma
      :: rest =>
      attributeEntries rest (pos + 4)
        (acc ++ [(k, IntegerAttr (TyInteger 64) z)])
  | tok_bare_identifier k :: tok_equal :: tok_integer z :: tok_r_brace
      :: rest =>
      Some (acc ++ [(k, IntegerAttr (TyInteger 64) z)], rest, (pos + 4)%nat)
  | tok_bare_identifier k :: tok_equal :: tok_string s :: tok_comma
      :: rest =>
      attributeEntries rest (pos + 4) (acc ++ [(k, StringAttr s)])
  | tok_bare_identifier k :: tok_equal :: tok_string s :: tok_r_brace
      :: rest =>
      Some (acc ++ [(k, StringAttr s)], rest, (pos + 4)%nat)
  | _ => None
  end.

Definition parseOptionalAttributeDict (attrs : list NamedAttribute)
    (p : t) (w : World)
  : LogicalResult * list NamedAttribute * t * World :=
  match input p with
  | tok_l_brace :: tok_r_brace :: rest =>
      (success, attrs, advance rest (S (S (offset p))) p, w)
  | tok_l_brace :: rest =>
      match attributeEntries rest (S (offset p)) [] with
      | Some (parsed, rest', pos) =>
          (success, attrs ++ parsed, advance rest' pos p, w)
      | None =>
          (failure, attrs, p,
           emitDiagnostic (offset p) "expected attribute dictionary" w)
      end
  | _ => (success, attrs, p, w)
  end.

(** The types after the first one: [, type]*. *)
Fixpoint typeListTail (toks : list Token) (pos : nat) (acc : list Ty)
  : option (list Ty * list Token * nat) :=
  match toks with
  | tok_comma :: rest =>
      match rest with
      | tok_type ty :: rest' =>
          typeListTail rest' (S (S pos)) (acc ++ [ty])
      | _ => None
      end
  | _ => Some (acc, toks, pos)
  end.

Definition parseColonTypeList (p : t) (w : World)
  : option (list Ty) * t * World :=
  match input p with
  | tok_colon :: tok_type ty :: rest =>
      match typeListTail rest (S (S (offset p))) [ty] with
      | Some (tys, rest', pos) => (Some tys, advance rest' pos p, w)
      | None => (None, p, emitDiagnostic (offset p) "expected type" w)
      end
  | tok_colon :: _ =>
      (None, p, emitDiagnostic (S (offset p)) "expected type" w)
  | _ => (None, p, emitDiagnostic (offset p) "expected ':'" w)
  end.

Fixpoint lookupScope (sc : list (string * Ty)) (key : string)
  : option Ty :=
  match sc with
  | [] => None
  | (k, ty) :: rest =>
      if String.eqb k key then Some ty else lookupScope rest key
  end.

Definition resolveOperand (operand : OperandType) (type : Ty)
    (operands : list Value.t) (p : t) (w : World)
  : LogicalResult * list Value.t * t * World :=
  let value := Value.mk (name operand) type in
  match lookupScope (scope p) (name operand) with
  | Some ty =>
      if Ty_eqb ty type then (success, operands ++ [value], p, w)
      else
        (failure, operands, p,
         emitDiagnostic (location operand)
           "use of value expects different type than prior uses" w)
  | None =>
      (success, operands ++ [value],
       mk (input p) (offset p) (nameLoc p)
          (scope p ++ [(name operand, type)]), w)
  end.

#[global] Instance interface : Interface t := {
  getNameLoc := nameLoc;
  parseOperand := parseOperand;
  parseOperandList := parseOperandList;
  parseOptionalAttributeDict := parseOptionalAttributeDict;
  parseColonTypeList := parseColonTypeList;
  resolveOperand := resolveOperand
}.

(** Modelled from the spec: the framework reads the operation name and
    hands the rest of the text to the parse hook of the operation of that
    name ([<op-name> ...] in the grammar); a successful parse creates the
    operation from the state the hook filled. *)
Definition parseOperation (toks : list Token) (sc : list (string * Ty))
    (loc : Loc) (w : World) : Outcome (option Operation.t * World) :=
  match toks with
  | tok_bare_identifier opName :: rest =>
      if String.eqb opName SliceOp.getOperationName then
        match SliceOp.parse
                (mkEnv (mk rest 1%nat 0%nat sc) OperationState.empty w) with
        | Ret (success, e) =>
            Ret (Some (Operation.create loc (result e)), world e)
        | Ret (failure, e) => Ret (None, world e)
        | AssertionFailure what => AssertionFailure what
        | NullDereference what => NullDereference what
        end
      else Ret (None, emitDiagnostic 0%nat "unregistered operation" w)
  | _ => Ret (None, emitDiagnostic 0%nat "expected operation name" w)
  end.
End TokenParser.

(* ================================================================= *)
(** ** The rules of the specification *)

Module Spec.

(** The result type of a slice of a view of rank [R] over [E]: the rank is
    kept for a Range and is one less for an Index; the element type is the
    parent's. *)
Definition resultType (E : Ty) (R : Z) (indexing : Ty) : option Ty :=
  match indexing with
  | TyRange => Some (TyView E R)
  | TyIndex => Some (TyView E (R - 1))
  | _ => None
  end.

(** The four checks as the specification lists them: the slicing dimension
    is there, its value is below the parent's rank, operand 0 is a view,
    operand 1 is a Range or an Index. *)
Definition statedChecks (op : Operation.t) : bool :=
  match Operation.getAttr op SliceOp.getSlicingDimAttrName,
        nth_error (Operation.getOperands op) 0,
        nth_error (Operation.getOperands op) 1 with
  | Some (IntegerAttr _ dim), Some parent, Some indexing =>
      match Value.getType parent with
      | TyView _ R =>
          (dim <? R)
          && (RangeType.isa (Value.getType indexing)
              || IndexType.isa (Value.getType indexing))
      | _ => false
      end
  | _, _, _ => false
  end.

(** The same four checks with the invariant of the data model for the second
    one: the slicing dimension lies in [0, parent rank). *)
Definition rangeChecks (op : Operation.t) : bool :=
  match Operation.getAttr op SliceOp.getSlicingDimAttrName,
        nth_error (Operation.getOperands op) 0,
        nth_error (Operation.getOperands op) 1 with
  | Some (IntegerAttr _ dim), Some parent, Some indexing =>
      match Value.getType parent with
      | TyView _ R =>
          (0 <=? dim) && (dim <? R)
          && (RangeType.isa (Value.getType indexing)
              || IndexType.isa (Value.getType indexing))
      | _ => false
      end
  | _, _, _ => false
  end.

(** The four checks with the slicing dimension as [verify] reads it, narrowed
    to [unsigned]: the value of the attribute modulo [2^32] is below the
    parent's rank. *)
Definition checks (op : Operation.t) : bool :=
  match Operation.getAttr op SliceOp.getSlicingDimAttrName,
        nth_error (Operation.getOperands op) 0,
        nth_error (Operation.getOperands op) 1 with
  | Some (IntegerAttr _ dim), Some parent, Some indexing =>
      match Value.getType parent with
      | TyView _ R =>
          (to_unsigned dim <? R)
          && (RangeType.isa (Value.getType indexing)
              || IndexType.isa (Value.getType indexing))
      | _ => false
      end
  | _, _, _ => false
  end.

(** The operand types, the slicing dimension and the result type of an
    instance: what printing and parsing have to preserve. *)
Definition parentType (op : Operation.t) : option Ty :=
  option_map Value.getType (nth_error (Operation.getOperands op) 0).

Definition indexingType (op : Operation.t) : option Ty :=
  option_map Value.getType (nth_error (Operation.getOperands op) 1).

Definition dimValue (op : Operation.t) : option Z :=
  match Operation.getAttr op SliceOp.getSlicingDimAttrName with
  | Some (IntegerAttr _ v) => Some v
  | _ => None
  end.

Definition equivalent (a b : Operation.t) : Prop :=
  parentType a = parentType b /\
  indexingType a = indexingType b /\
  dimValue a = dimValue b /\
  Operation.getResultTypes a = Operation.getResultTypes b.

(** Every rank of a type fits an [unsigned]. *)
Fixpoint wellFormedType (ty : Ty) : bool :=
  match ty with
  | TyView e r => wellFormedType e && (0 <=? r) && (r <? unsigned_modulus)
  | _ => true
  end.

(** A valid instance: two operands and one result, the invariants of the
    data model (the slicing dimension within the parent's rank, the result
    type given by [resultType]), and operands that are values in scope. *)
Definition valid (op : Operation.t) : Prop :=
  exists parent indexing E R T,
    Operation.getOperands op = [parent; indexing] /\
    Value.getType parent = TyView E R /\
    wellFormedType (TyView E R) = true /\
    checks op = true /\
    resultType E R (Value.getType indexing) = Some T /\
    Operation.getResultTypes op = [T].

Definition inScope (sc : list (string * Ty)) (v : Value.t) : Prop :=
  TokenParser.lookupScope sc (Value.name v) = Some (Value.getType v).

End Spec.

(* ================================================================= *)
(** ** Sample values and instances *)

Module Samples.
Definition w0 : World := mkWorld [] [].
Definition b0 : Builder.t := Builder.mk tt.

(** [%0 : !linalg.view<?x?xf32>], [%i0 : index], [%r0 : !linalg.range],
    [%x : f32] and a view of rank 0. *)
Definition view2 : Value.t := Value.mk "0" (TyView TyF32 2).
Definition view1 : Value.t := Value.mk "1" (TyView TyF32 1).
Definition view0 : Value.t := Value.mk "2" (TyView TyF32 0).
Definition i0 : Value.t := Value.mk "i0" TyIndex.
Definition r0 : Value.t := Value.mk "r0" TyRange.
Definition x0 : Value.t := Value.mk "x" TyF32.

Definition scope0 : list (string * Ty) :=
  [("0", TyView TyF32 2); ("1", TyView TyF32 1); ("2", TyView TyF32 0);
   ("i0", TyIndex); ("r0", TyRange); ("x", TyF32)].

Definition dimAttr (v : Z) : NamedAttribute := ("dim", IntegerAttr TyIndex v).

(** The instance [build] makes from [%0], [%i0] and [dim = 1]. *)
Definition indexSlice : Operation.t :=
  Operation.mk 0 [view2; i0] [dimAttr 1] [TyView TyF32 1].

(** The same with a range and [dim = 0]. *)
Definition rangeSlice : Operation.t :=
  Operation.mk 0 [view2; r0] [dimAttr 0] [TyView TyF32 2].

(** [linalg.slice %0[%i0] {dim = 0, tag = 7} : !linalg.view<?x?xf32>,
    index] and the instance it parses to. *)
Definition taggedText : list Token :=
  [tok_bare_identifier "linalg.slice"; tok_percent_identifier "0";
   tok_l_square; tok_percent_identifier "i0"; tok_r_square;
   tok_l_brace; tok_bare_identifier "dim"; tok_equal; tok_integer 0;
   tok_comma; tok_bare_identifier "tag"; tok_equal; tok_integer 7;
   tok_r_brace; tok_colon; tok_type (TyView TyF32 2); tok_comma;
   tok_type TyIndex].

Definition taggedSlice : Operation.t :=
  Operation.mk 0 [view2; i0]
    [("dim", IntegerAttr (TyInteger 64) 0);
     ("tag", IntegerAttr (TyInteger 64) 7)]
    [TyView TyF32 1].

(** What [print] writes for [taggedSlice]. *)
Definition taggedPrinted : list Token :=
  [tok_bare_identifier "linalg.slice"; tok_percent_identifier "0";
   tok_l_square; tok_percent_identifier "i0"; tok_r_square;
   tok_l_brace; tok_bare_identifier "dim"; tok_equal; tok_integer 0;
   tok_r_brace;
   tok_l_brace; tok_bare_identifier "tag"; tok_equal; tok_integer 7;
   tok_r_brace; tok_colon; tok_type (TyView TyF32 2); tok_comma;
   tok_type TyIndex].

(** [linalg.slice %0[%i0] {dim = 4294967296} : !linalg.view<?x?xf32>,
    index] and the instance it parses to: [dim] is [2^32], the parent has
    rank 2. *)
Definition wrappedDimText : list Token :=
  [tok_bare_identifier "linalg.slice"; tok_percent_identifier "0";
   tok_l_square; tok_percent_identifier "i0"; tok_r_square;
   tok_l_brace; tok_bare_identifier "dim"; tok_equal;
   tok_integer 4294967296; tok_r_brace; tok_colon;
   tok_type (TyView TyF32 2); tok_comma; tok_type TyIndex].

Definition wrappedDimSlice : Operation.t :=
  Operation.mk 0 [view2; i0]
    [("dim", IntegerAttr (TyInteger 64) 4294967296)]
    [TyView TyF32 1].

(** The same with [dim = -1]. *)
Definition negativeDimSlice : Operation.t :=
  Operation.mk 0 [view2; i0]
    [("dim", IntegerAttr (TyInteger 64) (-1))]
    [TyView TyF32 1].

(** [dim] is a string attribute. *)
Definition stringDimSlice : Operation.t :=
  Operation.mk 0 [view2; i0] [("dim", StringAttr "1")] [TyView TyF32 1].

(** Operand 0 is not a view. *)
Definition notAViewSlice : Operation.t :=
  Operation.mk 0 [x0; i0] [dimAttr 0] [TyView TyF32 1].

(** Operand 1 is neither a Range nor an Index, and [dim] is out of
    range. *)
Definition badIndexingFarDim : Operation.t :=
  Operation.mk 0 [view2; x0] [dimAttr 5] [TyView TyF32 1].

(** Operand 1 is neither a Range nor an Index, [dim] in range. *)
Definition badIndexing : Operation.t :=
  Operation.mk 0 [view2; x0] [dimAttr 1] [TyView TyF32 1].

(** All four checks hold; the result type has rank 5. *)
Definition wrongResultRank : Operation.t :=
  Operation.mk 0 [view2; i0] [dimAttr 1] [TyView TyF64 5].

(** A parent of rank 1 and [dim = 1]. *)
Definition dimOutOfRange : Operation.t :=
  Operation.mk 0 [view1; i0] [dimAttr 1] [TyView TyF32 0].



(** [%0[%i0, %i0] {dim = 0} : !linalg.view<?x?xf32>, index] *)
Definition twoEntries : list Token :=
  [tok_percent_identifier "0"; tok_l_square; tok_percent_identifier "i0";
   tok_comma; tok_percent_identifier "i0"; tok_r_square;
   tok_l_brace; tok_bare_identifier "dim"; tok_equal; tok_integer 0;
   tok_r_brace; tok_colon; tok_type (TyView TyF32 2); tok_comma;
   tok_type TyIndex].

(** [%0[%i0] {dim = 0} : !linalg.view<?x?xf32>, <type>] *)
Definition sliceText (parent : Ty) (indexing : Ty) : list Token :=
  [tok_percent_identifier "0"; tok_l_square; tok_percent_identifier "i0";
   tok_r_square;
   tok_l_brace; tok_bare_identifier "dim"; tok_equal; tok_integer 0;
   tok_r_brace; tok_colon; tok_type parent; tok_comma; tok_type indexing].

(** A parser at the start of [toks], after the operation name. *)
Definition parserAt (toks : list Token) : TokenParser.t :=
  TokenParser.mk toks 1 0 [].

Definition envAt (toks : list Token) : OpAsmParser.Env TokenParser.t :=
  OpAsmParser.mkEnv (parserAt toks) OperationState.empty w0.
End Samples.

(** What [build] leaves in the operation state when it completes. *)
Definition built (st : OperationState.t) (view indexing : Value.t) (dim : Z)
    (resultType : Ty) : OperationState.t :=
  OperationState.mk
    (OperationState.operands st ++ [view; indexing])
    (OperationState.types st ++ [resultType])
    (OperationState.attributes st ++ [("dim", IntegerAttr TyIndex dim)]).

(** The environment of [parse] with one more result type. *)
Definition withType {P : Type} (e : OpAsmParser.Env P) (ty : Ty)
  : OpAsmParser.Env P :=
  OpAsmParser.mkEnv (OpAsmParser.parser e)
    (OperationState.addTypes [ty] (OpAsmParser.result e))
    (OpAsmParser.world e).

(** The environment of [parse] after a located error. *)
Definition withError {P : Type} `{OpAsmParser.Interface P}
    (e : OpAsmParser.Env P) (message : string) : OpAsmParser.Env P :=
  OpAsmParser.mkEnv (OpAsmParser.parser e) (OpAsmParser.result e)
    (emitDiagnostic (OpAsmParser.getNameLoc (OpAsmParser.parser e)) message
       (OpAsmParser.world e)).

(** The environment of [parse] after a type was written to the
    standard-error stream. *)
Definition withErrs {P : Type} (e : OpAsmParser.Env P) (ty : Ty)
  : OpAsmParser.Env P :=
  OpAsmParser.mkEnv (OpAsmParser.parser e) (OpAsmParser.result e)
    (writeErrs ty (OpAsmParser.world e)).

(* ================================================================= *)
(** * Properties *)

(** ** Arithmetic on [unsigned] and equality of types *)

Lemma unsigned_modulus_pos : 1 < unsigned_modulus.
Proof. reflexivity. Qed.

Lemma usub_in_range (r : Z) :
  1 <= r < unsigned_modulus -> usub r 1 = r - 1.
Proof.
  intros Hr. unfold usub, to_unsigned. apply Z.mod_small. lia.
Qed.

Lemma usub_zero : usub 0 1 = 2 ^ unsigned_bits - 1.
Proof. reflexivity. Qed.

Lemma usub_changes (r : Z) : usub r 1 <> r.
Proof.
  unfold usub, to_unsigned. intros Heq.
  pose proof unsigned_modulus_pos as Hm.
  pose proof (Z.div_mod (r - 1) unsigned_modulus ltac:(lia)) as Hd.
  rewrite Heq in Hd.
  set (q := (r - 1) / unsigned_modulus) in Hd.
  destruct (Z_le_gt_dec 0 q); nia.
Qed.

Lemma Ty_eqb_refl (ty : Ty) : Ty_eqb ty ty = true.
Proof.
  induction ty as [w | | | | | e IH r]; simpl; auto using Z.eqb_refl.
  rewrite IH, Z.eqb_refl. reflexivity.
Qed.

Lemma isa_range_or_index (ty : Ty) :
  ty = TyRange \/ ty = TyIndex <->
  RangeType.isa ty || IndexType.isa ty = true.
Proof.
  split.
  - intros [-> | ->]; reflexivity.
  - destruct ty; simpl; intros Hty; try discriminate; auto.
Qed.

(** ** Construction *)

(** [build] on a parent that is a view, by the type of the indexing value. *)
Lemma build_on_view (b : Builder.t) (view indexing : Value.t) (dim : Z)
    (st : OperationState.t) (E : Ty) (R : Z) :
  Value.getType view = TyView E R ->
  SliceOp.build b view indexing dim st =
    match Value.getType indexing with
    | TyRange => Ret (tt, built st view indexing dim (TyView E R))
    | TyIndex => Ret (tt, built st view indexing dim (TyView E (usub R 1)))
    | _ => AssertionFailure "cast<IndexType>"
    end.
Proof.
  intros Hview.
  unfold SliceOp.build, bind, eval, modify, getViewRank, ViewType.cast.
  rewrite Hview. simpl.
  destruct (Value.getType indexing); reflexivity.
Qed.

(** [build] on a parent that is not a view stops in [getViewRank]. *)
Lemma build_not_on_view (b : Builder.t) (view indexing : Value.t) (dim : Z)
    (st : OperationState.t) :
  ViewType.isa (Value.getType view) = false ->
  SliceOp.build b view indexing dim st =
    AssertionFailure "getViewRank: expected a ViewType".
Proof.
  intros Hview.
  unfold SliceOp.build, bind, eval, getViewRank.
  unfold ViewType.isa in Hview.
  destruct (ViewType.dyn_cast (Value.getType view)); [discriminate | reflexivity].
Qed.

(** ** Parsing: the paths of [parse] after its first statement *)

Section ParsePaths.
Import OpAsmParser SliceOp.
Context {P : Type} `{Interface P}.

Variables (e e' : Env P) (viewInfo : OperandType)
          (indexingInfo : list OperandType) (types : list Ty).

(** One of the four calls fails: [parse] returns [failure] there. *)
Lemma parse_text_rejected :
  parseText e = Ret (None, e') -> parse e = Ret (failure, e').
Proof.
  intros Htext. unfold parse, bind. rewrite Htext. reflexivity.
Qed.

Hypothesis Htext :
  parseText e = Ret (Some (viewInfo, indexingInfo, types), e').

Lemma parse_indexing_count :
  List.length indexingInfo <> 1%nat ->
  parse e = Ret (failure, withError e' msgIndexingCount).
Proof.
  intros Hlen. unfold parse, bind. rewrite Htext.
  unfold getNameLocM.
  apply Nat.eqb_neq in Hlen. rewrite Hlen. reflexivity.
Qed.

Lemma parse_first_type_not_view (front : Ty) :
  List.length indexingInfo = 1%nat ->
  SmallVector.front types = Ret front ->
  ViewType.isa front = false ->
  parse e = Ret (failure, withError e' msgViewExpected).
Proof.
  intros Hlen Hfront Hisa. unfold parse, bind. rewrite Htext.
  unfold getNameLocM.
  apply Nat.eqb_eq in Hlen. rewrite Hlen. simpl.
  rewrite Hfront. simpl.
  unfold ViewType.isa in Hisa.
  destruct (ViewType.dyn_cast front); [discriminate | reflexivity].
Qed.

(** The path through the two type checks, for one indexing entry and a
    first type that is a view. *)
Lemma parse_one_entry (indexing : OperandType) (E : Ty) (R : Z) (back : Ty) :
  indexingInfo = [indexing] ->
  SmallVector.front types = Ret (TyView E R) ->
  SmallVector.back types = Ret back ->
  parse e =
    if negb (IndexType.isa back) && negb (RangeType.isa back) then
      Ret (failure, withError (withErrs e' back) msgIndexingType)
    else
      match resolveText viewInfo (TyView E R) [indexing] back e' with
      | Ret (success, e'') =>
          Ret (success,
               withType e''
                 (TyView E (if IndexType.isa back then usub R 1 else R)))
      | Ret (failure, e'') => Ret (failure, e'')
      | AssertionFailure what => AssertionFailure what
      | NullDereference what => NullDereference what
      end.
Proof.
  intros Hone Hfront Hback. unfold parse, bind. rewrite Htext.
  unfold getNameLocM. subst indexingInfo. simpl.
  rewrite Hfront. simpl. rewrite Hback. simpl.
  destruct (negb (IndexType.isa back) && negb (RangeType.isa back)).
  - reflexivity.
  - unfold ViewType.toType. simpl.
    destruct (resolveText viewInfo (TyView E R) [indexing] back e')
      as [[[|] e''] | what | what']; reflexivity.
Qed.
End ParsePaths.

(** ** Verification: the paths of [verify] *)

Ltac unfold_verify :=
  unfold SliceOp.verify, SliceOp.emitOpError, SliceOp.getSlicingDim,
    SliceOp.getParentRank, SliceOp.getParentViewType, SliceOp.getParentView,
    Operation.getIntegerAttrInt, Operation.getOperand, ViewType.cast,
    bind, eval, ret, modify, omap, andThen.

Lemma verify_without_dim (op : Operation.t) (w : World) :
  Operation.getAttr op SliceOp.getSlicingDimAttrName = None ->
  SliceOp.verify op w =
    Ret (failure, emitDiagnostic (Operation.getLoc op) SliceOp.msgMissingDim w).
Proof.
  intros Hattr. unfold_verify. rewrite Hattr. reflexivity.
Qed.

(** With an integer [dim] and a view as operand 0, [verify] goes through the
    range check and then looks at operand 1. *)
Lemma verify_on_view (op : Operation.t) (w : World) (ty : Ty) (v : Z)
    (parent : Value.t) (E : Ty) (R : Z) :
  Operation.getAttr op SliceOp.getSlicingDimAttrName
    = Some (IntegerAttr ty v) ->
  nth_error (Operation.getOperands op) 0 = Some parent ->
  Value.getType parent = TyView E R ->
  SliceOp.verify op w =
    if to_unsigned v >=? R then
      Ret (failure, emitDiagnostic (Operation.getLoc op) SliceOp.msgDimRange w)
    else
      match nth_error (Operation.getOperands op) 1 with
      | Some indexing =>
          if negb (RangeType.isa (Value.getType indexing))
             && negb (IndexType.isa (Value.getType indexing))
          then
            Ret (failure,
                 emitDiagnostic (Operation.getLoc op)
                   SliceOp.msgSecondOperand w)
          else Ret (success, w)
      | None => AssertionFailure "getOperand: index out of range"
      end.
Proof.
  intros Hattr Hparent Hview. unfold_verify.
  rewrite Hattr. cbv beta iota delta [dyn_cast_IntegerAttr].
  rewrite Hparent, Hview. cbv beta iota delta [ViewType.dyn_cast].
  change (ViewType.getRank (ViewType.mk E R)) with R.
  destruct (to_unsigned v >=? R); [reflexivity |].
  cbv beta iota delta [ViewType.isa ViewType.dyn_cast].
  change (negb true) with false. cbv beta iota.
  destruct (nth_error (Operation.getOperands op) 1) as [indexing |];
    [| reflexivity].
  destruct (RangeType.isa (Value.getType indexing)),
    (IndexType.isa (Value.getType indexing)); reflexivity.
Qed.

(** With operand 0 not a view, the cast in [getParentRank] stops [verify]
    before the operand checks. *)
Lemma verify_not_on_view (op : Operation.t) (w : World) (ty : Ty) (v : Z)
    (parent : Value.t) :
  Operation.getAttr op SliceOp.getSlicingDimAttrName
    = Some (IntegerAttr ty v) ->
  nth_error (Operation.getOperands op) 0 = Some parent ->
  ViewType.isa (Value.getType parent) = false ->
  SliceOp.verify op w = AssertionFailure "cast<ViewType>".
Proof.
  intros Hattr Hparent Hview. unfold_verify.
  rewrite Hattr. cbv beta iota delta [dyn_cast_IntegerAttr].
  rewrite Hparent.
  unfold ViewType.isa in Hview.
  destruct (ViewType.dyn_cast (Value.getType parent));
    [discriminate | reflexivity].
Qed.

(** Every outcome of [verify] that returns. *)
Lemma verify_returns (op : Operation.t) (w w' : World) (r : LogicalResult) :
  SliceOp.verify op w = Ret (r, w') ->
  (r = success /\ w' = w /\ Spec.checks op = true) \/
  (r = failure /\ Spec.checks op = false /\
   exists message,
     w' = emitDiagnostic (Operation.getLoc op) message w /\
     (message = SliceOp.msgMissingDim \/ message = SliceOp.msgDimRange \/
      message = SliceOp.msgSecondOperand)).
Proof.
  unfold Spec.checks.
  destruct (Operation.getAttr op SliceOp.getSlicingDimAttrName)
    as [[ty v | s] |] eqn:Hattr.
  - destruct (nth_error (Operation.getOperands op) 0) as [parent |] eqn:Hp.
    + destruct (Value.getType parent) eqn:Hty;
        try (rewrite (verify_not_on_view op w ty v parent Hattr Hp)
              by (unfold ViewType.isa; rewrite Hty; reflexivity);
             discriminate).
      rewrite (verify_on_view op w ty v parent _ _ Hattr Hp Hty).
      rewrite Z.geb_leb.
      destruct (Z.leb_spec rank (to_unsigned v)) as [Hle | Hlt].
      * intros [= <- <-]. right.
        replace (to_unsigned v <? rank) with false
          by (symmetry; apply Z.ltb_ge; exact Hle).
        destruct (nth_error (Operation.getOperands op) 1);
          repeat split; eauto.
      * apply Z.ltb_lt in Hlt. rewrite Hlt.
        destruct (nth_error (Operation.getOperands op) 1) as [indexing |];
          [| discriminate].
        rewrite <- negb_orb.
        destruct (RangeType.isa (Value.getType indexing)
                  || IndexType.isa (Value.getType indexing)); simpl.
        -- intros [= <- <-]. left. auto.
        -- intros [= <- <-]. right. repeat split; eauto.
    + unfold_verify. rewrite Hattr.
      cbv beta iota delta [dyn_cast_IntegerAttr]. rewrite Hp. discriminate.
  - unfold_verify. rewrite Hattr. simpl. discriminate.
  - rewrite (verify_without_dim op w Hattr). intros [= <- <-].
    right. repeat split; eauto.
Qed.

(** ** The result type of a slice *)

(** C1. For a parent view of rank [R >= 1] over [E], [build] and [parse]
    give the result type by one rule, [Spec.resultType]: a Range keeps the
    rank [R], an Index gives rank [R - 1], and the element type is [E] in
    both.  [build] is taken on a parent value of that type, [parse] on a text
    whose first statement delivers one indexing entry and types that start
    with the view type and end with the indexing type, and whose operands
    resolve. *)
Theorem slice_result_type_rule (E : Ty) (R : Z) :
  1 <= R < unsigned_modulus ->
  (forall (b : Builder.t) (view indexing : Value.t) (dim : Z)
          (st : OperationState.t),
      Value.getType view = TyView E R ->
      Value.getType indexing = TyRange \/ Value.getType indexing = TyIndex ->
      exists T,
        Spec.resultType E R (Value.getType indexing) = Some T /\
        SliceOp.build b view indexing dim st
          = Ret (tt, built st view indexing dim T)) /\
  (forall (P : Type) (I : OpAsmParser.Interface P)
          (e e' e'' : OpAsmParser.Env P)
          (viewInfo indexing : OpAsmParser.OperandType)
          (types : list Ty) (back : Ty),
      SliceOp.parseText e = Ret (Some (viewInfo, [indexing], types), e') ->
      SmallVector.front types = Ret (TyView E R) ->
      SmallVector.back types = Ret back ->
      back = TyRange \/ back = TyIndex ->
      SliceOp.resolveText viewInfo (TyView E R) [indexing] back e'
        = Ret (success, e'') ->
      exists T,
        Spec.resultType E R back = Some T /\
        SliceOp.parse e = Ret (success, withType e'' T)).
Proof.
  intros HR. split.
  - intros b view indexing dim st Hview Hidx.
    rewrite (build_on_view b view indexing dim st E R Hview).
    destruct Hidx as [-> | ->]; simpl.
    + eexists. split; reflexivity.
    + rewrite (usub_in_range R HR). eexists. split; reflexivity.
  - intros P I e e' e'' viewInfo indexing types back Htext Hfront Hback
      Hidx Hres.
    rewrite (parse_one_entry e e' viewInfo [indexing] types Htext
               indexing E R back eq_refl Hfront Hback).
    rewrite Hres.
    destruct Hidx as [-> | ->]; simpl.
    + eexists. split; reflexivity.
    + rewrite (usub_in_range R HR). eexists. split; reflexivity.
Qed.

Lemma slice_result_type_rule_witness :
  (SliceOp.build Samples.b0 Samples.view2 Samples.i0 1 OperationState.empty
     = Ret (tt, built OperationState.empty Samples.view2 Samples.i0 1
                  (TyView TyF32 1))) /\
  (exists e'',
     SliceOp.parse
       (Samples.envAt (Samples.sliceText (TyView TyF32 2) TyRange))
     = Ret (success, withType e'' (TyView TyF32 2))).
Proof.
  assert (HR : 1 <= 2 < unsigned_modulus) by (split; [discriminate | reflexivity]).
  destruct (slice_result_type_rule TyF32 2 HR) as [Hbuild Hparse].
  split.
  - destruct (Hbuild Samples.b0 Samples.view2 Samples.i0 1
                OperationState.empty eq_refl (or_intror eq_refl))
      as [T [HT Hb]].
    injection HT as <-. exact Hb.
  - edestruct (Hparse TokenParser.t TokenParser.interface
                 (Samples.envAt (Samples.sliceText (TyView TyF32 2) TyRange)))
      as [T [HT Hp]].
    + reflexivity.
    + reflexivity.
    + reflexivity.
    + left. reflexivity.
    + reflexivity.
    + injection HT as <-. eexists. exact Hp.
Defined.

(** C9. A parent of rank 0 sliced by an Index is not rejected: [build] and
    [parse] both give the result view the rank [2^32 - 1], the wrap-around of
    [0 - 1] on [unsigned]. *)
Theorem rank_zero_index_wraps (E : Ty) :
  (forall (b : Builder.t) (view indexing : Value.t) (dim : Z)
          (st : OperationState.t),
      Value.getType view = TyView E 0 ->
      Value.getType indexing = TyIndex ->
      SliceOp.build b view indexing dim st
        = Ret (tt, built st view indexing dim
                     (TyView E (2 ^ unsigned_bits - 1)))) /\
  (forall (P : Type) (I : OpAsmParser.Interface P)
          (e e' e'' : OpAsmParser.Env P)
          (viewInfo indexing : OpAsmParser.OperandType) (types : list Ty),
      SliceOp.parseText e = Ret (Some (viewInfo, [indexing], types), e') ->
      SmallVector.front types = Ret (TyView E 0) ->
      SmallVector.back types = Ret TyIndex ->
      SliceOp.resolveText viewInfo (TyView E 0) [indexing] TyIndex e'
        = Ret (success, e'') ->
      SliceOp.parse e
        = Ret (success, withType e'' (TyView E (2 ^ unsigned_bits - 1)))).
Proof.
  split.
  - intros b view indexing dim st Hview Hidx.
    rewrite (build_on_view b view indexing dim st E 0 Hview), Hidx.
    rewrite usub_zero. reflexivity.
  - intros P I e e' e'' viewInfo indexing types Htext Hfront Hback Hres.
    rewrite (parse_one_entry e e' viewInfo [indexing] types Htext
               indexing E 0 TyIndex eq_refl Hfront Hback).
    simpl. rewrite Hres, usub_zero. reflexivity.
Qed.

Lemma rank_zero_index_wraps_witness :
  (SliceOp.build Samples.b0 Samples.view0 Samples.i0 0 OperationState.empty
     = Ret (tt, built OperationState.empty Samples.view0 Samples.i0 0
                  (TyView TyF32 4294967295))) /\
  (exists e'',
     SliceOp.parse
       (Samples.envAt (Samples.sliceText (TyView TyF32 0) TyIndex))
     = Ret (success, withType e'' (TyView TyF32 4294967295))).
Proof.
  destruct (rank_zero_index_wraps TyF32) as [Hbuild Hparse].
  split.
  - exact (Hbuild Samples.b0 Samples.view0 Samples.i0 0
             OperationState.empty eq_refl eq_refl).
  - eexists.
    eapply (Hparse TokenParser.t TokenParser.interface
              (Samples.envAt (Samples.sliceText (TyView TyF32 0) TyIndex)));
      reflexivity.
Defined.

(** ** Verification *)

(** X18. [verify] looks for the slicing dimension first: without the
    attribute it fails with the missing-dim message whatever the operands
    are.  With an integer attribute and a parent view of rank [R], it fails
    with the out-of-range message whenever the slicing dimension as
    [getSlicingDim] returns it (the value of the attribute narrowed to
    [unsigned]) is at least [R], whatever operand 1 is. *)
Theorem verify_dim_checks_first (op : Operation.t) (w : World) :
  (Operation.getAttr op SliceOp.getSlicingDimAttrName = None ->
   SliceOp.verify op w
     = Ret (failure,
            emitDiagnostic (Operation.getLoc op) SliceOp.msgMissingDim w)) /\
  (forall (ty : Ty) (v : Z) (parent : Value.t) (E : Ty) (R : Z),
      Operation.getAttr op SliceOp.getSlicingDimAttrName
        = Some (IntegerAttr ty v) ->
      nth_error (Operation.getOperands op) 0 = Some parent ->
      Value.getType parent = TyView E R ->
      to_unsigned v >= R ->
      SliceOp.getSlicingDim op = Ret (to_unsigned v) /\
      SliceOp.getParentRank op = Ret R /\
      SliceOp.verify op w
        = Ret (failure,
               emitDiagnostic (Operation.getLoc op) SliceOp.msgDimRange w)).
Proof.
  split.
  - apply verify_without_dim.
  - intros ty v parent E R Hattr Hparent Hview Hdim.
    split; [| split].
    + unfold SliceOp.getSlicingDim, Operation.getIntegerAttrInt.
      rewrite Hattr. reflexivity.
    + unfold SliceOp.getParentRank, SliceOp.getParentViewType,
        SliceOp.getParentView, Operation.getOperand.
      rewrite Hparent. simpl. unfold ViewType.cast. rewrite Hview.
      reflexivity.
    + rewrite (verify_on_view op w ty v parent E R Hattr Hparent Hview).
      rewrite Z.geb_leb.
      replace (R <=? to_unsigned v) with true
        by (symmetry; apply Z.leb_le; lia).
      reflexivity.
Qed.

Lemma verify_dim_checks_first_witness :
  SliceOp.verify (Operation.mk 0 [Samples.x0] [] []) Samples.w0
    = Ret (failure, emitDiagnostic 0 SliceOp.msgMissingDim Samples.w0) /\
  SliceOp.verify Samples.dimOutOfRange Samples.w0
    = Ret (failure, emitDiagnostic 0 SliceOp.msgDimRange Samples.w0).
Proof.
  split.
  - apply (proj1 (verify_dim_checks_first
                    (Operation.mk 0 [Samples.x0] [] []) Samples.w0)).
    reflexivity.
  - apply (proj2 (verify_dim_checks_first Samples.dimOutOfRange Samples.w0)
             TyIndex 1 Samples.view1 TyF32 1); try reflexivity.
    vm_compute. discriminate.
Defined.

(** X19. For an instance whose slicing dimension, as [verify] reads it (the
    value of the integer attribute narrowed to [unsigned]), is below the
    rank of the parent view (operand 0), [verify] returns [failure] with the
    second-operand message whenever operand 1 is neither a Range nor an
    Index. *)
Theorem verify_second_operand_message (op : Operation.t) (w : World)
    (ty : Ty) (v : Z) (parent indexing : Value.t) (E : Ty) (R : Z) :
  Operation.getAttr op SliceOp.getSlicingDimAttrName
    = Some (IntegerAttr ty v) ->
  nth_error (Operation.getOperands op) 0 = Some parent ->
  Value.getType parent = TyView E R ->
  to_unsigned v < R ->
  nth_error (Operation.getOperands op) 1 = Some indexing ->
  RangeType.isa (Value.getType indexing) = false ->
  IndexType.isa (Value.getType indexing) = false ->
  SliceOp.verify op w
    = Ret (failure,
           emitDiagnostic (Operation.getLoc op) SliceOp.msgSecondOperand w).
Proof.
  intros Hattr Hparent Hview Hdim Hindexing Hrange Hindex.
  rewrite (verify_on_view op w ty v parent E R Hattr Hparent Hview).
  rewrite Z.geb_leb.
  replace (R <=? to_unsigned v) with false
    by (symmetry; apply Z.leb_gt; exact Hdim).
  rewrite Hindexing, Hrange, Hindex. reflexivity.
Qed.

Lemma verify_second_operand_message_witness :
  SliceOp.verify Samples.badIndexing Samples.w0
    = Ret (failure, emitDiagnostic 0 SliceOp.msgSecondOperand Samples.w0).
Proof.
  apply (verify_second_operand_message Samples.badIndexing Samples.w0
           TyIndex 1 Samples.view2 Samples.x0 TyF32 2); reflexivity.
Defined.

(** X1. The first-operand message is never the outcome of [verify]. *)
Lemma verify_first_operand_message_unreachable (op : Operation.t)
    (w : World) (r : LogicalResult) :
  SliceOp.verify op w
    <> Ret (r, emitDiagnostic (Operation.getLoc op) SliceOp.msgFirstOperand w).
Proof.
  intros Hv. apply verify_returns in Hv.
  destruct Hv as [[_ [Hw _]] | [_ [_ [message [Hw Hm]]]]].
  - apply (f_equal (fun x => List.length (diagnostics x))) in Hw.
    simpl in Hw. rewrite length_app in Hw. simpl in Hw. lia.
  - apply (f_equal diagnostics) in Hw. simpl in Hw.
    apply app_inv_head in Hw. injection Hw as Hmsg.
    destruct Hm as [-> | [-> | ->]]; discriminate.
Qed.

(** [verify] succeeds exactly when the four checks hold as it reads them
    ([Spec.checks]: the slicing dimension narrowed to [unsigned]), and then
    leaves the world as it was.  It does not read the result types: replacing
    them changes nothing, and an instance whose result has rank 5 over
    another element type, where the rule gives rank 1 over [f32], passes. *)
Lemma verify_succeeds_iff_checks :
  (forall (op : Operation.t) (w : World),
      (exists w', SliceOp.verify op w = Ret (success, w'))
      <-> Spec.checks op = true) /\
  (forall (op : Operation.t) (w w' : World),
      SliceOp.verify op w = Ret (success, w') <-> Spec.checks op = true /\ w' = w) /\
  (forall (loc : Loc) (operands : list Value.t)
          (attrs : list NamedAttribute) (results results' : list Ty)
          (w : World),
      SliceOp.verify (Operation.mk loc operands attrs results') w
        = SliceOp.verify (Operation.mk loc operands attrs results) w) /\
  (SliceOp.verify Samples.wrongResultRank Samples.w0
     = Ret (success, Samples.w0) /\
   Spec.resultType TyF32 2 TyIndex = Some (TyView TyF32 1) /\
   Operation.getResultTypes Samples.wrongResultRank = [TyView TyF64 5]).
Proof.
  assert (Hiff : forall op w w',
             SliceOp.verify op w = Ret (success, w')
             <-> Spec.checks op = true /\ w' = w).
  { intros op w w'. split.
    - intros Hv. apply verify_returns in Hv.
      destruct Hv as [[_ [Hw Hc]] | [Hr _]]; [auto | discriminate].
    - intros [Hc ->]. unfold Spec.checks in Hc.
      destruct (Operation.getAttr op SliceOp.getSlicingDimAttrName)
        as [[ty v | s] |] eqn:Hattr; try discriminate.
      destruct (nth_error (Operation.getOperands op) 0)
        as [parent |] eqn:Hparent; try discriminate.
      destruct (nth_error (Operation.getOperands op) 1)
        as [indexing |] eqn:Hindexing; try discriminate.
      destruct (Value.getType parent) eqn:Hview; try discriminate.
      apply andb_true_iff in Hc. destruct Hc as [Hdim Hidx].
      rewrite (verify_on_view op w ty v parent _ _ Hattr Hparent Hview).
      rewrite Hindexing, Z.geb_leb.
      apply Z.ltb_lt in Hdim.
      replace (rank <=? to_unsigned v) with false
        by (symmetry; apply Z.leb_gt; exact Hdim).
      rewrite <- negb_orb, Hidx. reflexivity. }
  split; [| split; [exact Hiff | split]].
  - intros op w. split.
    + intros [w' Hv]. apply Hiff in Hv. tauto.
    + intros Hc. exists w. apply Hiff. auto.
  - reflexivity.
  - repeat split.
Qed.

(** C3, on an instance whose operand 0 is not a view.  The instance carries
    [dim] and an Index as operand 1; [verify] reads the parent's rank for the
    range check, and the cast in [getParentRank] asserts before the check of
    operand 0 is reached: [verify] stops there and does not return the
    first-operand failure. *)
Theorem verify_asserts_on_non_view_parent :
  Operation.getAttr Samples.notAViewSlice SliceOp.getSlicingDimAttrName
    = Some (IntegerAttr TyIndex 0) /\
  SliceOp.getParentView Samples.notAViewSlice = Ret Samples.x0 /\
  ViewType.isa (Value.getType Samples.x0) = false /\
  SliceOp.getIndexing Samples.notAViewSlice = Ret Samples.i0 /\
  IndexType.isa (Value.getType Samples.i0) = true /\
  SliceOp.getParentRank Samples.notAViewSlice
    = AssertionFailure "cast<ViewType>" /\
  SliceOp.verify Samples.notAViewSlice Samples.w0
    = AssertionFailure "cast<ViewType>" /\
  SliceOp.verify Samples.notAViewSlice Samples.w0
    <> Ret (failure, emitDiagnostic 0 SliceOp.msgFirstOperand Samples.w0).
Proof.
  repeat split; try reflexivity.
  vm_compute. discriminate.
Qed.

(** C4, on an instance whose [dim] is [2^32].  The text
    [linalg.slice %0[%i0] {dim = 4294967296} : !linalg.view<?x?xf32>, index]
    parses to [wrappedDimSlice]: the attribute holds [2^32], the parent has
    rank 2.  [verify] compares the value narrowed to [unsigned], which is 0,
    and succeeds; [print] writes the value of the attribute in full. *)
Theorem verify_accepts_wrapped_dim :
  TokenParser.parseOperation Samples.wrappedDimText Samples.scope0 0
    Samples.w0
    = Ret (Some Samples.wrappedDimSlice, Samples.w0) /\
  Spec.dimValue Samples.wrappedDimSlice = Some 4294967296 /\
  SliceOp.getParentRank Samples.wrappedDimSlice = Ret 2 /\
  4294967296 >= 2 /\
  SliceOp.getSlicingDim Samples.wrappedDimSlice = Ret 0 /\
  SliceOp.verify Samples.wrappedDimSlice Samples.w0
    = Ret (success, Samples.w0) /\
  SliceOp.verify Samples.wrappedDimSlice Samples.w0
    <> Ret (failure, emitDiagnostic 0 SliceOp.msgDimRange Samples.w0) /\
  exists toks,
    SliceOp.printed Samples.wrappedDimSlice = Ret toks /\
    In (tok_integer 4294967296) toks.
Proof.
  split; [vm_compute; reflexivity |].
  split; [reflexivity |]. split; [reflexivity |].
  split; [discriminate |].
  split; [vm_compute; reflexivity |].
  split; [vm_compute; reflexivity |].
  split; [vm_compute; discriminate |].
  eexists. split; [vm_compute; reflexivity |].
  do 8 right. left. reflexivity.
Qed.

(** C8, as stated, fails on an instance whose [dim] is [-1]: the attribute is
    there, [-1] is below the parent's rank 2, operand 0 is a view and
    operand 1 an Index, so the four checks as listed hold; [verify] compares
    the slicing dimension as an [unsigned] and fails with the out-of-range
    message. *)
Lemma verify_stated_checks_counterexample :
  Spec.statedChecks Samples.negativeDimSlice = true /\
  Spec.dimValue Samples.negativeDimSlice = Some (-1) /\
  SliceOp.getParentRank Samples.negativeDimSlice = Ret 2 /\
  -1 < 2 /\
  SliceOp.verify Samples.negativeDimSlice Samples.w0
    = Ret (failure, emitDiagnostic 0 SliceOp.msgDimRange Samples.w0) /\
  forall w', SliceOp.verify Samples.negativeDimSlice Samples.w0
             <> Ret (success, w').
Proof.
  repeat split; try reflexivity.
  intros w'. vm_compute. discriminate.
Qed.

(** For a slicing dimension that fits 32 bits, and a rank that a signed
    32-bit integer holds, the comparison [verify] makes on [unsigned] is the
    test of the range [0, rank). *)
Lemma checks_within_32_bits (op : Operation.t) :
  (forall ty v,
      Operation.getAttr op SliceOp.getSlicingDimAttrName
        = Some (IntegerAttr ty v) ->
      - 2 ^ 31 <= v < unsigned_modulus) ->
  (forall parent E R,
      nth_error (Operation.getOperands op) 0 = Some parent ->
      Value.getType parent = TyView E R ->
      R <= 2 ^ 31) ->
  Spec.checks op = Spec.rangeChecks op.
Proof.
  intros Hdim Hrank. unfold Spec.checks, Spec.rangeChecks.
  destruct (Operation.getAttr op SliceOp.getSlicingDimAttrName)
    as [[ty v | s] |]; try reflexivity.
  destruct (nth_error (Operation.getOperands op) 0) as [parent |];
    try reflexivity.
  destruct (nth_error (Operation.getOperands op) 1) as [indexing |];
    try reflexivity.
  destruct (Value.getType parent) as [wd | | | | | E R] eqn:Hview;
    try reflexivity.
  specialize (Hdim ty v eq_refl). specialize (Hrank parent E R eq_refl Hview).
  f_equal.
  unfold to_unsigned, unsigned_modulus, unsigned_bits in *.
  change (2 ^ 32) with 4294967296 in *.
  change (2 ^ 31) with 2147483648 in *.
  destruct (Z.leb_spec 0 v) as [Hpos | Hneg].
  - rewrite Z.mod_small by lia. reflexivity.
  - replace (v mod 4294967296) with (v + 4294967296).
    + cbn [andb]. apply Z.ltb_ge. lia.
    + rewrite <- (Z.mod_small (v + 4294967296) 4294967296) by lia.
      replace (v + 4294967296) with (v + 1 * 4294967296) by lia.
      apply Z.mod_add. discriminate.
Qed.

(** C8, amended.  For an instance whose [dim], when it is an integer
    attribute, fits 32 bits (from [-2^31] up to [2^32], excluded) and whose
    parent rank is at most [2^31], [verify] succeeds exactly when the
    attribute is there as an integer, its value lies in [0, parent rank),
    operand 0 is a view and operand 1 is a Range or an Index; it then leaves
    the world as it was.  It does not read the result types: replacing them
    changes nothing. *)
Theorem verify_succeeds_iff_range_checks (op : Operation.t) (w : World) :
  (forall ty v,
      Operation.getAttr op SliceOp.getSlicingDimAttrName
        = Some (IntegerAttr ty v) ->
      - 2 ^ 31 <= v < unsigned_modulus) ->
  (forall parent E R,
      nth_error (Operation.getOperands op) 0 = Some parent ->
      Value.getType parent = TyView E R ->
      R <= 2 ^ 31) ->
  ((exists w', SliceOp.verify op w = Ret (success, w'))
   <-> Spec.rangeChecks op = true) /\
  (forall w', SliceOp.verify op w = Ret (success, w') -> w' = w) /\
  (forall results' : list Ty,
      SliceOp.verify
        (Operation.mk (Operation.getLoc op) (Operation.getOperands op)
           (Operation.getAttrs op) results') w
      = SliceOp.verify op w).
Proof.
  intros Hdim Hrank.
  destruct verify_succeeds_iff_checks as (Hex & Hiff & _ & _).
  rewrite <- (checks_within_32_bits op Hdim Hrank).
  split; [apply Hex |]. split.
  - intros w' Hv. apply Hiff in Hv. tauto.
  - intros results'. destruct op. reflexivity.
Qed.

Lemma verify_succeeds_iff_range_checks_witness :
  ((exists w', SliceOp.verify Samples.wrongResultRank Samples.w0
               = Ret (success, w'))
   <-> Spec.rangeChecks Samples.wrongResultRank = true) /\
  Spec.rangeChecks Samples.wrongResultRank = true /\
  Spec.resultType TyF32 2 TyIndex = Some (TyView TyF32 1) /\
  Operation.getResultTypes Samples.wrongResultRank = [TyView TyF64 5].
Proof.
  split; [| repeat split].
  apply (verify_succeeds_iff_range_checks Samples.wrongResultRank Samples.w0).
  - intros ty v [= <- <-]. split; [discriminate | reflexivity].
  - intros parent E R [= <-] [= <- <-]. discriminate.
Defined.

(** ** Parse failures *)







(** C10. On the path of [parse] where the first type is a view and the last
    type is neither a Range nor an Index, [parse] writes that type to the
    standard-error stream and reports the located error: the stream holds
    one more entry, the type, which is not in the diagnostics. *)
Theorem parse_bad_indexing_type_writes_errs (P : Type)
    (I : OpAsmParser.Interface P) (e e' : OpAsmParser.Env P)
    (viewInfo indexing : OpAsmParser.OperandType) (types : list Ty)
    (E : Ty) (R : Z) (back : Ty) :
  SliceOp.parseText e = Ret (Some (viewInfo, [indexing], types), e') ->
  SmallVector.front types = Ret (TyView E R) ->
  SmallVector.back types = Ret back ->
  RangeType.isa back = false ->
  IndexType.isa back = false ->
  exists e'',
    SliceOp.parse e = Ret (failure, e'') /\
    errs (OpAsmParser.world e'') = errs (OpAsmParser.world e') ++ [back] /\
    diagnostics (OpAsmParser.world e'')
      = diagnostics (OpAsmParser.world e')
        ++ [mkDiagnostic (OpAsmParser.getNameLoc (OpAsmParser.parser e'))
              "indexing must be of range or index type"] /\
    OpAsmParser.result e'' = OpAsmParser.result e'.
Proof.
  intros Htext Hfront Hback Hrange Hindex.
  exists (withError (withErrs e' back) SliceOp.msgIndexingType).
  split; [| repeat split].
  rewrite (parse_one_entry e e' viewInfo [indexing] types Htext
             indexing E R back eq_refl Hfront Hback).
  rewrite Hrange, Hindex. reflexivity.
Qed.

Lemma parse_bad_indexing_type_writes_errs_witness :
  exists e'',
    SliceOp.parse (Samples.envAt (Samples.sliceText (TyView TyF32 2) TyF32))
      = Ret (failure, e'') /\
    errs (OpAsmParser.world e'') = [TyF32].
Proof.
  edestruct (parse_bad_indexing_type_writes_errs TokenParser.t
               TokenParser.interface
               (Samples.envAt (Samples.sliceText (TyView TyF32 2) TyF32)))
    as [e'' [Hparse [Herrs _]]].
  - reflexivity.
  - reflexivity.
  - reflexivity.
  - reflexivity.
  - reflexivity.
  - exists e''. split; [exact Hparse | exact Herrs].
Defined.

(** ** Construction *)

(** C6. With an indexing value that is neither a Range nor an Index, [build]
    never returns an operation state: it stops on an assertion, and on a
    parent that is a view the assertion is the [cast<IndexType>] of the
    [else] branch.  With a Range or an Index that assertion does not fail,
    and on a parent that is a view [build] returns. *)
Theorem build_asserts_on_indexing_type (b : Builder.t)
    (view indexing : Value.t) (dim : Z) (st : OperationState.t) :
  (RangeType.isa (Value.getType indexing) = false ->
   IndexType.isa (Value.getType indexing) = false ->
   (exists what,
      SliceOp.build b view indexing dim st = AssertionFailure what) /\
   (ViewType.isa (Value.getType view) = true ->
    SliceOp.build b view indexing dim st
      = AssertionFailure "cast<IndexType>")) /\
  (RangeType.isa (Value.getType indexing)
   || IndexType.isa (Value.getType indexing) = true ->
   SliceOp.build b view indexing dim st <> AssertionFailure "cast<IndexType>"
   /\
   (ViewType.isa (Value.getType view) = true ->
    exists st', SliceOp.build b view indexing dim st = Ret (tt, st'))).
Proof.
  destruct (Value.getType view) as [w | | | | | E R] eqn:Hview;
    try (rewrite (build_not_on_view b view indexing dim st)
           by (rewrite Hview; reflexivity);
         split;
         [ intros _ _; split; [eexists; reflexivity | discriminate]
         | intros _; split; discriminate ]).
  rewrite (build_on_view b view indexing dim st E R Hview).
  split.
  - intros Hrange Hindex.
    destruct (Value.getType indexing); try discriminate;
      (split; [eexists; reflexivity | reflexivity]).
  - intros Hidx.
    destruct (Value.getType indexing); try discriminate;
      (split; [discriminate | intros _; eexists; reflexivity]).
Qed.

Lemma build_asserts_on_indexing_type_witness :
  SliceOp.build Samples.b0 Samples.view2 Samples.x0 0 OperationState.empty
    = AssertionFailure "cast<IndexType>" /\
  SliceOp.build Samples.b0 Samples.view2 Samples.r0 0 OperationState.empty
    <> AssertionFailure "cast<IndexType>".
Proof.
  split.
  - apply (proj1 (build_asserts_on_indexing_type Samples.b0 Samples.view2
                    Samples.x0 0 OperationState.empty));
      reflexivity.
  - apply (proj2 (build_asserts_on_indexing_type Samples.b0 Samples.view2
                    Samples.r0 0 OperationState.empty)).
    reflexivity.
Defined.

(** ** Derived accessors *)

(** The accessors on the instance [build] constructs from a view of rank [R]
    over [E]: the parent's rank and element type, the element type of the
    result, and the one indexing operand. *)
Lemma built_slice_accessors (b : Builder.t) (view indexing : Value.t)
    (dim : Z) (st : OperationState.t) (loc : Loc) (E : Ty) (R : Z) :
  Value.getType view = TyView E R ->
  SliceOp.build b view indexing dim OperationState.empty = Ret (tt, st) ->
  let op := Operation.create loc st in
  SliceOp.getParentRank op = Ret R /\
  SliceOp.getParentElementType op = Ret E /\
  SliceOp.getElementType op = Ret E /\
  SliceOp.getIndexings op = [indexing] /\
  SliceOp.getSlicingDim op = Ret (to_unsigned dim).
Proof.
  intros Hview Hbuild op. subst op.
  rewrite (build_on_view b view indexing dim _ E R Hview) in Hbuild.
  assert (Hparent : forall T,
             SliceOp.getParentViewType
               (Operation.create loc
                  (built OperationState.empty view indexing dim T))
             = Ret (ViewType.mk E R)).
  { intros T. unfold SliceOp.getParentViewType. simpl.
    unfold ViewType.cast. rewrite Hview. reflexivity. }
  destruct (Value.getType indexing); try discriminate;
    injection Hbuild as <-;
    unfold SliceOp.getParentRank, SliceOp.getParentElementType;
    rewrite Hparent; repeat split.
Qed.

(** C7. On the instance [build] constructs, [isRankDecreasing] returns
    whether the result rank differs from the parent rank, and that is the
    case exactly when the indexing value is an Index.  A rank-2 parent with
    an Index and [dim = 1] gives rank 1 and [true]; with a Range, [false]. *)
Theorem isRankDecreasing_iff_index :
  (forall (b : Builder.t) (view indexing : Value.t) (dim : Z)
          (st : OperationState.t) (loc : Loc),
      SliceOp.build b view indexing dim OperationState.empty = Ret (tt, st) ->
      let op := Operation.create loc st in
      exists parentRank rank,
        SliceOp.getParentRank op = Ret parentRank /\
        SliceOp.getRank op = Ret rank /\
        SliceOp.isRankDecreasing op = Ret (negb (parentRank =? rank)) /\
        (SliceOp.isRankDecreasing op = Ret true <-> rank <> parentRank) /\
        (rank <> parentRank <-> Value.getType indexing = TyIndex)) /\
  (exists st,
     SliceOp.build Samples.b0 Samples.view2 Samples.i0 1 OperationState.empty
       = Ret (tt, st) /\
     Operation.create 0 st = Samples.indexSlice /\
     SliceOp.getRank Samples.indexSlice = Ret 1 /\
     SliceOp.isRankDecreasing Samples.indexSlice = Ret true) /\
  (exists st,
     SliceOp.build Samples.b0 Samples.view2 Samples.r0 0 OperationState.empty
       = Ret (tt, st) /\
     Operation.create 0 st = Samples.rangeSlice /\
     SliceOp.getRank Samples.rangeSlice = Ret 2 /\
     SliceOp.isRankDecreasing Samples.rangeSlice = Ret false).
Proof.
  split; [| split].
  2: { exists (built OperationState.empty Samples.view2 Samples.i0 1
                 (TyView TyF32 1)).
       repeat split; vm_compute; reflexivity. }
  2: { exists (built OperationState.empty Samples.view2 Samples.r0 0
                 (TyView TyF32 2)).
       repeat split; vm_compute; reflexivity. }
  intros b view indexing dim st loc Hbuild op. subst op.
  destruct (ViewType.isa (Value.getType view)) eqn:Hisa.
  2: { rewrite (build_not_on_view b view indexing dim _ Hisa) in Hbuild.
       discriminate. }
  destruct (Value.getType view) as [w | | | | | E R] eqn:Hview;
    try discriminate.
  rewrite (build_on_view b view indexing dim _ E R Hview) in Hbuild.
  assert (Hparent : SliceOp.getParentRank
                      (Operation.create loc
                         (built OperationState.empty view indexing dim
                            (TyView E R))) = Ret R).
  { unfold SliceOp.getParentRank, SliceOp.getParentViewType. simpl.
    unfold ViewType.cast. rewrite Hview. reflexivity. }
  assert (Hparent' : SliceOp.getParentRank
                       (Operation.create loc
                          (built OperationState.empty view indexing dim
                             (TyView E (usub R 1)))) = Ret R).
  { unfold SliceOp.getParentRank, SliceOp.getParentViewType. simpl.
    unfold ViewType.cast. rewrite Hview. reflexivity. }
  destruct (Value.getType indexing) eqn:Hidx; try discriminate;
    injection Hbuild as <-.
  - exists R, (usub R 1).
    pose proof (usub_changes R) as Hneq.
    assert (Hdec : SliceOp.isRankDecreasing
                     (Operation.create loc
                        (built OperationState.empty view indexing dim
                           (TyView E (usub R 1)))) = Ret true).
    { unfold SliceOp.isRankDecreasing. rewrite Hparent'. simpl.
      replace (R =? usub R 1) with false; [reflexivity |].
      symmetry. apply Z.eqb_neq. congruence. }
    split; [exact Hparent' |]. split; [reflexivity |].
    split.
    { rewrite Hdec. replace (R =? usub R 1) with false; [reflexivity |].
      symmetry. apply Z.eqb_neq. congruence. }
    split; split; auto.
  - exists R, R.
    assert (Hdec : SliceOp.isRankDecreasing
                     (Operation.create loc
                        (built OperationState.empty view indexing dim
                           (TyView E R))) = Ret false).
    { unfold SliceOp.isRankDecreasing. rewrite Hparent. simpl.
      rewrite Z.eqb_refl. reflexivity. }
    split; [exact Hparent |]. split; [reflexivity |].
    split.
    { rewrite Hdec, Z.eqb_refl. reflexivity. }
    split; split; try discriminate; try congruence.
Qed.

Lemma isRankDecreasing_iff_index_witness :
  exists parentRank rank,
    SliceOp.getParentRank Samples.indexSlice = Ret parentRank /\
    SliceOp.getRank Samples.indexSlice = Ret rank /\
    SliceOp.isRankDecreasing Samples.indexSlice
      = Ret (negb (parentRank =? rank)) /\
    (SliceOp.isRankDecreasing Samples.indexSlice = Ret true
     <-> rank <> parentRank) /\
    (rank <> parentRank <-> Value.getType Samples.i0 = TyIndex).
Proof.
  apply (proj1 isRankDecreasing_iff_index Samples.b0 Samples.view2
           Samples.i0 1
           (built OperationState.empty Samples.view2 Samples.i0 1
              (TyView TyF32 1))
           0%nat).
  vm_compute. reflexivity.
Defined.

(** ** Printing and parsing *)

(** The text of an instance that carries [dim] and nothing else. *)
Lemma printed_slice (op : Operation.t) (parent indexing : Value.t)
    (rest : list Value.t) (E : Ty) (R : Z) (ty : Ty) (v : Z) :
  Operation.getOperands op = parent :: indexing :: rest ->
  Value.getType parent = TyView E R ->
  Operation.getAttr op "dim" = Some (IntegerAttr ty v) ->
  (forall na, In na (Operation.getAttrs op) -> fst na = "dim") ->
  SliceOp.printed op =
    Ret [tok_bare_identifier "linalg.slice";
         tok_percent_identifier (Value.name parent); tok_l_square;
         tok_percent_identifier (Value.name indexing); tok_r_square;
         tok_l_brace; tok_bare_identifier "dim"; tok_equal; tok_integer v;
         tok_r_brace; tok_colon; tok_type (TyView E R); tok_comma;
         tok_type (Value.getType indexing)].
Proof.
  intros Hops Hview Hattr Honly.
  assert (Hshown :
            filter (fun na => negb (OpAsmPrinter.isElided ["dim"] na))
              (Operation.getAttrs op) = []).
  { induction (Operation.getAttrs op) as [| na attrs IH]; [reflexivity |].
    cbn [filter]. unfold OpAsmPrinter.isElided at 1. cbn [existsb].
    rewrite (Honly na (or_introl eq_refl)).
    change (negb (String.eqb "dim" "dim" || false)) with false.
    cbv beta iota.
    apply IH. intros na' Hin. apply Honly. right. exact Hin. }
  unfold SliceOp.printed, SliceOp.print, omap, andThen, bind, eval,
    OpAsmPrinter.emit, OpAsmPrinter.printOperand, OpAsmPrinter.printType,
    OpAsmPrinter.printInt, OpAsmPrinter.printOptionalAttrDict, modify, ret,
    SliceOp.getParentViewType, SliceOp.getParentView, SliceOp.getIndexing,
    Operation.getOperand, Operation.getIntegerAttrInt, ViewType.cast,
    andThen.
  rewrite Hops, Hattr, Hshown. simpl. rewrite Hview. reflexivity.
Qed.

(** The text [printed_slice] describes parses back, in a scope that holds
    both operands, to an instance with these operands, [dim] and the result
    type of the rule. *)
Lemma parse_printed_slice (pname iname : string) (E : Ty) (R v : Z)
    (ity : Ty) (sc : list (string * Ty)) (loc : Loc) (w : World) :
  ity = TyRange \/ ity = TyIndex ->
  TokenParser.lookupScope sc pname = Some (TyView E R) ->
  TokenParser.lookupScope sc iname = Some ity ->
  TokenParser.parseOperation
    [tok_bare_identifier "linalg.slice";
     tok_percent_identifier pname; tok_l_square;
     tok_percent_identifier iname; tok_r_square;
     tok_l_brace; tok_bare_identifier "dim"; tok_equal; tok_integer v;
     tok_r_brace; tok_colon; tok_type (TyView E R); tok_comma; tok_type ity]
    sc loc w
  = Ret (Some (Operation.mk loc
                 [Value.mk pname (TyView E R); Value.mk iname ity]
                 [("dim", IntegerAttr (TyInteger 64) v)]
                 [TyView E (if IndexType.isa ity then usub R 1 else R)]),
         w).
Proof.
  intros Hity Hparent Hindexing.
  unfold TokenParser.parseOperation.
  change (String.eqb "linalg.slice" SliceOp.getOperationName) with true.
  cbv beta iota.
  set (e := OpAsmParser.mkEnv _ _ _).
  assert (Htext :
            SliceOp.parseText e
            = Ret (Some (OpAsmParser.mkOperand 1 pname,
                         [OpAsmParser.mkOperand 3 iname],
                         [TyView E R; ity]),
                   OpAsmParser.mkEnv
                     (TokenParser.mk [] 14 0 sc)
                     (OperationState.mk [] []
                        [("dim", IntegerAttr (TyInteger 64) v)])
                     w)) by reflexivity.
  rewrite (parse_one_entry e _ _ _ _ Htext _ E R ity eq_refl eq_refl eq_refl).
  replace (negb (IndexType.isa ity) && negb (RangeType.isa ity)) with false
    by (destruct Hity as [-> | ->]; reflexivity).
  unfold SliceOp.resolveText, OpAsmParser.resolveOperandsM,
    OpAsmParser.resolveOperandM, bind, ret, eval.
  cbn [OpAsmParser.resolveOperand TokenParser.interface OpAsmParser.parser
       OpAsmParser.result OpAsmParser.world OperationState.operands].
  unfold TokenParser.resolveOperand.
  cbn [OpAsmParser.name TokenParser.scope].
  rewrite Hparent, (Ty_eqb_refl (TyView E R)).
  cbn [OpAsmParser.resolveOperand TokenParser.interface OpAsmParser.parser
       OpAsmParser.result OpAsmParser.world OperationState.operands
       OperationState.setOperands OpAsmParser.name TokenParser.scope
       SmallVector.index nth_error].
  rewrite Hindexing, (Ty_eqb_refl ity).
  reflexivity.
Qed.

(** X15. A valid instance that carries no attribute besides [dim] survives
    printing and parsing: the text parses back, in a scope that holds its
    operands, to an instance with the same parent type, indexing type, [dim]
    and result type. *)
Theorem print_parse_roundtrip (op : Operation.t) (sc : list (string * Ty))
    (loc : Loc) (w : World) :
  Spec.valid op ->
  (forall na, In na (Operation.getAttrs op) -> fst na = "dim") ->
  Forall (Spec.inScope sc) (Operation.getOperands op) ->
  exists toks op',
    SliceOp.printed op = Ret toks /\
    TokenParser.parseOperation toks sc loc w = Ret (Some op', w) /\
    Spec.equivalent op op'.
Proof.
  intros (parent & indexing & E & R & T & Hops & Hview & Hwf & Hchecks
          & Hrule & Hresults) Honly Hscope.
  rewrite Hops in Hscope.
  pose proof (Forall_inv Hscope) as Hparent.
  pose proof (Forall_inv (Forall_inv_tail Hscope)) as Hindexing.
  unfold Spec.inScope in Hparent, Hindexing. rewrite Hview in Hparent.
  unfold Spec.checks in Hchecks. rewrite Hops in Hchecks.
  destruct (Operation.getAttr op SliceOp.getSlicingDimAttrName)
    as [[ty v | s] |] eqn:Hattr; try discriminate.
  cbn [nth_error] in Hchecks. rewrite Hview in Hchecks.
  apply andb_true_iff in Hchecks. destruct Hchecks as [Hdim Hidx].
  apply Z.ltb_lt in Hdim. apply isa_range_or_index in Hidx.
  cbn [Spec.wellFormedType] in Hwf.
  apply andb_true_iff in Hwf. destruct Hwf as [_ HR].
  apply Z.ltb_lt in HR.
  assert (Hv : 0 <= to_unsigned v).
  { unfold to_unsigned. apply Z.mod_pos_bound. reflexivity. }
  eexists. eexists. split; [| split].
  - apply (printed_slice op parent indexing [] E R ty v Hops Hview Hattr Honly).
  - apply (parse_printed_slice _ _ E R v _ sc loc w Hidx Hparent Hindexing).
  - unfold Spec.equivalent, Spec.parentType, Spec.indexingType, Spec.dimValue,
      Operation.getAttr.
    fold (Operation.getAttr op SliceOp.getSlicingDimAttrName).
    rewrite Hops, Hattr, Hresults. cbn. rewrite Hview.
    repeat split.
    destruct Hidx as [Hi | Hi]; rewrite Hi in Hrule |- *;
      injection Hrule as <-; cbn; [reflexivity |].
    rewrite usub_in_range by lia. reflexivity.
Qed.

Lemma print_parse_roundtrip_witness :
  exists toks op',
    SliceOp.printed Samples.indexSlice = Ret toks /\
    TokenParser.parseOperation toks Samples.scope0 0 Samples.w0
      = Ret (Some op', Samples.w0) /\
    Spec.equivalent Samples.indexSlice op'.
Proof.
  apply (print_parse_roundtrip Samples.indexSlice Samples.scope0 0
           Samples.w0).
  - exists Samples.view2, Samples.i0, TyF32, 2, (TyView TyF32 1).
    repeat split.
  - intros na [<- | []]. reflexivity.
  - repeat constructor.
Defined.

(** C2, on an instance with one more attribute.  The text
    [linalg.slice %0[%i0] {dim = 0, tag = 7} : !linalg.view<?x?xf32>, index]
    parses to [taggedSlice]; the instance passes [verify] and is valid, with
    its operands in scope.  [print] writes [dim] in braces of its own and the
    other attribute in a second dictionary; [parse] reads one dictionary and
    then wants the colon, so the printed text is rejected. *)
Theorem print_parse_rejects_extra_attribute :
  TokenParser.parseOperation Samples.taggedText Samples.scope0 0 Samples.w0
    = Ret (Some Samples.taggedSlice, Samples.w0) /\
  SliceOp.verify Samples.taggedSlice Samples.w0 = Ret (success, Samples.w0) /\
  Spec.valid Samples.taggedSlice /\
  Forall (Spec.inScope Samples.scope0)
    (Operation.getOperands Samples.taggedSlice) /\
  SliceOp.printed Samples.taggedSlice = Ret Samples.taggedPrinted /\
  TokenParser.parseOperation Samples.taggedPrinted Samples.scope0 0 Samples.w0
    = Ret (None, emitDiagnostic 10 "expected ':'" Samples.w0).
Proof.
  split; [reflexivity |]. split; [reflexivity |]. split.
  - exists Samples.view2, Samples.i0, TyF32, 2, (TyView TyF32 1).
    repeat split.
  - split; [repeat constructor |]. split; reflexivity.
Qed.

(* ================================================================= *)
(** * Further properties of the operation *)

(** ** Verification: when it returns, and what it guarantees *)

(** When [verify] returns. *)
Lemma verify_returns_when (op : Operation.t) (w : World) :
  (exists r w', SliceOp.verify op w = Ret (r, w')) <->
  (Operation.getAttr op SliceOp.getSlicingDimAttrName = None \/
   exists ty v parent E R,
     Operation.getAttr op SliceOp.getSlicingDimAttrName
       = Some (IntegerAttr ty v) /\
     nth_error (Operation.getOperands op) 0 = Some parent /\
     Value.getType parent = TyView E R /\
     (to_unsigned v >= R \/
      exists indexing, nth_error (Operation.getOperands op) 1 = Some indexing)).
Proof.
  split.
  - intros (r & w' & Hv).
    destruct (Operation.getAttr op SliceOp.getSlicingDimAttrName)
      as [[ty v | s] |] eqn:Hattr; [| | left; reflexivity].
    + right.
      destruct (nth_error (Operation.getOperands op) 0)
        as [parent |] eqn:Hparent.
      * destruct (Value.getType parent) as [wd | | | | | E rank] eqn:Hview;
          try (rewrite (verify_not_on_view op w ty v parent Hattr Hparent)
                 in Hv by (unfold ViewType.isa; rewrite Hview; reflexivity);
               discriminate).
        exists ty, v, parent, E, rank.
        repeat split; auto.
        rewrite (verify_on_view op w ty v parent _ _ Hattr Hparent Hview)
          in Hv.
        rewrite Z.geb_leb in Hv.
        destruct (Z.leb_spec rank (to_unsigned v)) as [Hle | Hlt];
          [left; lia |].
        right.
        destruct (nth_error (Operation.getOperands op) 1) as [indexing |];
          [eexists; reflexivity | discriminate].
      * revert Hv. unfold_verify. rewrite Hattr.
        cbv beta iota delta [dyn_cast_IntegerAttr]. rewrite Hparent.
        discriminate.
    + revert Hv. unfold_verify. rewrite Hattr. simpl. discriminate.
  - intros [Hnone | (ty & v & parent & E & R & Hattr & Hparent & Hview & Hd)].
    + rewrite (verify_without_dim op w Hnone). eauto.
    + rewrite (verify_on_view op w ty v parent E R Hattr Hparent Hview).
      rewrite Z.geb_leb.
      destruct (Z.leb_spec R (to_unsigned v)) as [Hle | Hlt]; [eauto |].
      destruct Hd as [Hge | [indexing Hindexing]]; [lia |].
      rewrite Hindexing.
      destruct (negb (RangeType.isa (Value.getType indexing))
                && negb (IndexType.isa (Value.getType indexing))); eauto.
Qed.

(** X2. [verify] returns (with [success] or [failure]) exactly when [dim] is
    missing, or [dim] is an integer attribute, operand 0 is a view, and
    either the slicing dimension as [verify] reads it (the value of the
    attribute narrowed to [unsigned]) is at least the parent's rank or
    operand 1 exists.  In the other cases it does not return: a [dim] that
    is not an integer attribute makes [getInt()] dereference a null
    attribute; a missing operand 0, an operand 0 that is not a view and a
    missing operand 1 each trip an assertion. *)
Theorem verify_returns_iff (op : Operation.t) (w : World) :
  ((exists r w', SliceOp.verify op w = Ret (r, w')) <->
   (Operation.getAttr op SliceOp.getSlicingDimAttrName = None \/
    exists ty v parent E R,
      Operation.getAttr op SliceOp.getSlicingDimAttrName
        = Some (IntegerAttr ty v) /\
      nth_error (Operation.getOperands op) 0 = Some parent /\
      Value.getType parent = TyView E R /\
      (to_unsigned v >= R \/
       exists indexing,
         nth_error (Operation.getOperands op) 1 = Some indexing))) /\
  (forall s,
      Operation.getAttr op SliceOp.getSlicingDimAttrName
        = Some (StringAttr s) ->
      SliceOp.verify op w
        = NullDereference "IntegerAttr::getInt on a null attribute") /\
  (forall ty v,
      Operation.getAttr op SliceOp.getSlicingDimAttrName
        = Some (IntegerAttr ty v) ->
      (nth_error (Operation.getOperands op) 0 = None ->
       SliceOp.verify op w
         = AssertionFailure "getOperand: index out of range") /\
      (forall parent,
          nth_error (Operation.getOperands op) 0 = Some parent ->
          ViewType.isa (Value.getType parent) = false ->
          SliceOp.verify op w = AssertionFailure "cast<ViewType>") /\
      (forall parent E R,
          nth_error (Operation.getOperands op) 0 = Some parent ->
          Value.getType parent = TyView E R ->
          to_unsigned v < R ->
          nth_error (Operation.getOperands op) 1 = None ->
          SliceOp.verify op w
            = AssertionFailure "getOperand: index out of range")).
Proof.
  split; [apply verify_returns_when |]. split.
  - intros s Hattr. unfold_verify. rewrite Hattr. reflexivity.
  - intros ty v Hattr. split; [| split].
    + intros Hparent. unfold_verify. rewrite Hattr.
      cbv beta iota delta [dyn_cast_IntegerAttr]. rewrite Hparent.
      reflexivity.
    + intros parent Hparent Hisa.
      apply (verify_not_on_view op w ty v parent Hattr Hparent Hisa).
    + intros parent E R Hparent Hview Hdim Hindexing.
      rewrite (verify_on_view op w ty v parent E R Hattr Hparent Hview).
      rewrite Z.geb_leb.
      replace (R <=? to_unsigned v) with false
        by (symmetry; apply Z.leb_gt; exact Hdim).
      rewrite Hindexing. reflexivity.
Qed.

Lemma verify_returns_iff_witness :
  SliceOp.verify Samples.stringDimSlice Samples.w0
    = NullDereference "IntegerAttr::getInt on a null attribute" /\
  SliceOp.verify Samples.notAViewSlice Samples.w0
    = AssertionFailure "cast<ViewType>" /\
  SliceOp.verify (Operation.mk 0 [Samples.view2] [Samples.dimAttr 0] [])
    Samples.w0
    = AssertionFailure "getOperand: index out of range".
Proof.
  split; [| split].
  - apply (proj1 (proj2 (verify_returns_iff Samples.stringDimSlice
                           Samples.w0)) "1").
    reflexivity.
  - apply (proj1 (proj2 (proj2 (proj2 (verify_returns_iff
                                         Samples.notAViewSlice Samples.w0))
                           TyIndex 0 eq_refl)) Samples.x0);
      reflexivity.
  - apply (proj2 (proj2 (proj2 (proj2 (verify_returns_iff
               (Operation.mk 0 [Samples.view2] [Samples.dimAttr 0] [])
               Samples.w0)) TyIndex 0 eq_refl)) Samples.view2 TyF32 2);
      reflexivity.
Defined.

(** X3. No slice of a rank-0 view verifies: whatever integer [dim] holds, the
    range check fails. *)
Theorem verify_rejects_rank_zero_parent (op : Operation.t) (w : World)
    (ty : Ty) (v : Z) (parent : Value.t) (E : Ty) :
  Operation.getAttr op SliceOp.getSlicingDimAttrName
    = Some (IntegerAttr ty v) ->
  nth_error (Operation.getOperands op) 0 = Some parent ->
  Value.getType parent = TyView E 0 ->
  SliceOp.verify op w
    = Ret (failure,
           emitDiagnostic (Operation.getLoc op) SliceOp.msgDimRange w).
Proof.
  intros Hattr Hparent Hview.
  rewrite (verify_on_view op w ty v parent E 0 Hattr Hparent Hview).
  rewrite Z.geb_leb.
  replace (0 <=? to_unsigned v) with true; [reflexivity |].
  symmetry. apply Z.leb_le. unfold to_unsigned.
  apply Z.mod_pos_bound. reflexivity.
Qed.

Lemma verify_rejects_rank_zero_parent_witness :
  SliceOp.verify
    (Operation.mk 0 [Samples.view0; Samples.i0] [Samples.dimAttr 0]
       [TyView TyF32 4294967295])
    Samples.w0
  = Ret (failure, emitDiagnostic 0 SliceOp.msgDimRange Samples.w0).
Proof.
  apply (verify_rejects_rank_zero_parent
           (Operation.mk 0 [Samples.view0; Samples.i0] [Samples.dimAttr 0]
              [TyView TyF32 4294967295])
           Samples.w0 TyIndex 0 Samples.view0 TyF32); reflexivity.
Defined.

(** X4. [build] does not look at [dim]; [verify] does.  On the instance [build]
    constructs from a view of rank [R] and a Range or an Index, [verify]
    succeeds when [dim < R] and fails with the out-of-range message
    otherwise. *)
Theorem build_then_verify (b : Builder.t) (view indexing : Value.t)
    (dim : Z) (loc : Loc) (w : World) (E : Ty) (R : Z) :
  Value.getType view = TyView E R ->
  Value.getType indexing = TyRange \/ Value.getType indexing = TyIndex ->
  0 <= dim < unsigned_modulus ->
  exists st,
    SliceOp.build b view indexing dim OperationState.empty = Ret (tt, st) /\
    SliceOp.verify (Operation.create loc st) w
      = if dim <? R then Ret (success, w)
        else Ret (failure, emitDiagnostic loc SliceOp.msgDimRange w).
Proof.
  intros Hview Hidx Hdim.
  rewrite (build_on_view b view indexing dim _ E R Hview).
  assert (Hv : forall T,
             SliceOp.verify
               (Operation.create loc
                  (built OperationState.empty view indexing dim T)) w
             = if dim <? R then Ret (success, w)
               else Ret (failure, emitDiagnostic loc SliceOp.msgDimRange w)).
  { intros T.
    rewrite (verify_on_view
               (Operation.create loc
                  (built OperationState.empty view indexing dim T))
               w TyIndex dim view E R eq_refl eq_refl Hview).
    unfold to_unsigned. rewrite (Z.mod_small dim) by exact Hdim.
    rewrite Z.geb_leb. cbn [Operation.create Operation.getLoc].
    destruct (Z.leb_spec R dim) as [Hle | Hlt].
    - replace (dim <? R) with false by (symmetry; apply Z.ltb_ge; lia).
      reflexivity.
    - replace (dim <? R) with true by (symmetry; apply Z.ltb_lt; lia).
      cbn. destruct Hidx as [-> | ->]; reflexivity. }
  destruct Hidx as [Hi | Hi]; rewrite Hi; eexists; split;
    try reflexivity; apply Hv.
Qed.

Lemma build_then_verify_witness :
  exists st,
    SliceOp.build Samples.b0 Samples.view2 Samples.i0 2 OperationState.empty
      = Ret (tt, st) /\
    SliceOp.verify (Operation.create 0 st) Samples.w0
      = Ret (failure, emitDiagnostic 0 SliceOp.msgDimRange Samples.w0).
Proof.
  apply (build_then_verify Samples.b0 Samples.view2 Samples.i0 2 0%nat
           Samples.w0 TyF32 2).
  - reflexivity.
  - right. reflexivity.
  - split; [discriminate | reflexivity].
Defined.

(** X5. After a successful [verify] the parent accessors, [getIndexing] and
    [getSlicingDim] return, the slicing dimension is below the parent's rank,
    the indexing operand is a Range or an Index, and [print] writes the
    instance. *)
Theorem verified_slice_accessors (op : Operation.t) (w w' : World) :
  SliceOp.verify op w = Ret (success, w') ->
  exists E R dim indexing toks,
    SliceOp.getParentViewType op = Ret (ViewType.mk E R) /\
    SliceOp.getParentRank op = Ret R /\
    SliceOp.getParentElementType op = Ret E /\
    SliceOp.getSlicingDim op = Ret dim /\
    0 <= dim < R /\
    SliceOp.getIndexing op = Ret indexing /\
    (Value.getType indexing = TyRange \/ Value.getType indexing = TyIndex) /\
    In indexing (SliceOp.getIndexings op) /\
    SliceOp.printed op = Ret toks.
Proof.
  intros Hv. apply verify_returns in Hv.
  destruct Hv as [[_ [_ Hc]] | [Hr _]]; [| discriminate].
  unfold Spec.checks in Hc.
  destruct (Operation.getAttr op SliceOp.getSlicingDimAttrName)
    as [[ty v | s] |] eqn:Hattr; try discriminate.
  destruct (Operation.getOperands op) as [| parent [| indexing rest]] eqn:Hops;
    try discriminate.
  cbn [nth_error] in Hc.
  destruct (Value.getType parent) as [wd | | | | | E rank] eqn:Hview;
    try discriminate.
  apply andb_true_iff in Hc. destruct Hc as [Hdim Hidx].
  apply Z.ltb_lt in Hdim. apply isa_range_or_index in Hidx.
  exists E, rank, (to_unsigned v), indexing.
  assert (Hpvt : SliceOp.getParentViewType op
                 = Ret (ViewType.mk E rank)).
  { unfold SliceOp.getParentViewType, SliceOp.getParentView,
      Operation.getOperand, andThen, ViewType.cast.
    rewrite Hops. cbn [nth_error]. rewrite Hview. reflexivity. }
  assert (Hprint : exists toks, SliceOp.printed op = Ret toks).
  { unfold SliceOp.printed, SliceOp.print, omap, andThen, bind, eval,
      OpAsmPrinter.emit, OpAsmPrinter.printOperand, OpAsmPrinter.printType,
      OpAsmPrinter.printInt, OpAsmPrinter.printOptionalAttrDict, modify, ret,
      SliceOp.getParentViewType, SliceOp.getParentView, SliceOp.getIndexing,
      Operation.getOperand, Operation.getIntegerAttrInt, ViewType.cast,
      andThen.
    rewrite Hops.
    change (Operation.getAttr op "dim")
      with (Operation.getAttr op SliceOp.getSlicingDimAttrName).
    rewrite Hattr. cbn [nth_error dyn_cast_IntegerAttr]. rewrite Hview.
    cbn [ViewType.dyn_cast].
    destruct (filter _ (Operation.getAttrs op)); eexists; reflexivity. }
  destruct Hprint as [toks Hprint]. exists toks.
  unfold SliceOp.getParentRank, SliceOp.getParentElementType.
  rewrite Hpvt.
  unfold SliceOp.getSlicingDim, Operation.getIntegerAttrInt,
    SliceOp.getIndexing, SliceOp.getIndexings, Operation.getOperand.
  rewrite Hattr, Hops. cbn.
  repeat split; auto.
  unfold to_unsigned. apply Z.mod_pos_bound. reflexivity.
Qed.

Lemma verified_slice_accessors_witness :
  exists E R dim indexing toks,
    SliceOp.getParentViewType Samples.wrongResultRank
      = Ret (ViewType.mk E R) /\
    SliceOp.getParentRank Samples.wrongResultRank = Ret R /\
    SliceOp.getParentElementType Samples.wrongResultRank = Ret E /\
    SliceOp.getSlicingDim Samples.wrongResultRank = Ret dim /\
    0 <= dim < R /\
    SliceOp.getIndexing Samples.wrongResultRank = Ret indexing /\
    (Value.getType indexing = TyRange \/ Value.getType indexing = TyIndex) /\
    In indexing (SliceOp.getIndexings Samples.wrongResultRank) /\
    SliceOp.printed Samples.wrongResultRank = Ret toks.
Proof.
  apply (verified_slice_accessors Samples.wrongResultRank Samples.w0
           Samples.w0).
  reflexivity.
Defined.

(** ** Parsing: every path of [parse] *)

Lemma back_of_nonempty {A : Type} (x : A) (l : list A) :
  exists y, SmallVector.back (x :: l) = Ret y.
Proof.
  unfold SmallVector.back.
  destruct (rev (x :: l)) as [| y l'] eqn:Hrev; [| eauto].
  apply (f_equal (@List.length A)) in Hrev.
  rewrite length_rev in Hrev. discriminate.
Qed.

Section ParseCases.
Import OpAsmParser SliceOp.
Context {P : Type} `{Interface P}.

(** The first statement of [parse] returns, and touches neither the
    operands nor the result types of the operation state. *)
Lemma parseText_returns (e : Env P) :
  exists r e',
    parseText e = Ret (r, e') /\
    OperationState.operands (result e') = OperationState.operands (result e) /\
    OperationState.types (result e') = OperationState.types (result e).
Proof.
  unfold parseText, bind, ret, parseOperandM, parseOperandListM,
    parseOptionalAttributeDictM, parseColonTypeListM.
  destruct (parseOperand (parser e) (world e)) as [[[viewInfo |] p1] w1];
    cbn; [| eauto].
  destruct (parseOperandList 1 Square p1 w1) as [[[indexingInfo |] p2] w2];
    cbn; [| eauto].
  destruct (parseOptionalAttributeDict (OperationState.attributes (result e))
              p2 w2) as [[[[|] attrs] p3] w3]; cbn; [| eauto].
  destruct (parseColonTypeList p3 w3) as [[[types |] p4] w4]; cbn; eauto.
Qed.

Lemma resolveOperandM_returns (operand : OperandType) (type : Ty)
    (e : Env P) :
  exists r e',
    resolveOperandM operand type e = Ret (r, e') /\
    OperationState.types (result e') = OperationState.types (result e).
Proof.
  unfold resolveOperandM.
  destruct (resolveOperand operand type (OperationState.operands (result e))
              (parser e) (world e)) as [[[r operands] p] w].
  eauto.
Qed.

(** The resolution calls return when there is an indexing entry, and leave
    the result types alone. *)
Lemma resolveText_returns (viewInfo indexing : OperandType)
    (viewType indexingType : Ty) (e : Env P) :
  exists r e',
    resolveText viewInfo viewType [indexing] indexingType e = Ret (r, e') /\
    OperationState.types (result e') = OperationState.types (result e).
Proof.
  unfold resolveText, bind.
  destruct (resolveOperandM_returns viewInfo viewType e)
    as (r1 & e1 & Hr1 & Ht1).
  rewrite Hr1. destruct r1; [| exists failure, e1; auto].
  cbn. unfold bind.
  destruct (resolveOperandM_returns indexing indexingType e1)
    as (r2 & e2 & Hr2 & Ht2).
  rewrite Hr2. exists r2, e2.
  destruct r2; (split; [reflexivity | congruence]).
Qed.

(** The paths of [parse], by what its first statement delivers. *)
Lemma parse_cases (e : Env P) :
  (exists e', parseText e = Ret (None, e') /\ parse e = Ret (failure, e')) \/
  (exists viewInfo indexingInfo types e',
     parseText e = Ret (Some (viewInfo, indexingInfo, types), e') /\
     ((List.length indexingInfo <> 1%nat /\
       parse e = Ret (failure, withError e' msgIndexingCount)) \/
      (exists indexing, indexingInfo = [indexing] /\
         ((types = [] /\
           parse e
             = AssertionFailure "SmallVector::front on an empty vector") \/
          (exists front, SmallVector.front types = Ret front /\
             ViewType.isa front = false /\
             parse e = Ret (failure, withError e' msgViewExpected)) \/
          (exists E R back,
             SmallVector.front types = Ret (TyView E R) /\
             SmallVector.back types = Ret back /\
             parse e =
               if negb (IndexType.isa back) && negb (RangeType.isa back) then
                 Ret (failure, withError (withErrs e' back) msgIndexingType)
               else
                 match resolveText viewInfo (TyView E R) [indexing] back e'
                 with
                 | Ret (success, e'') =>
                     Ret (success,
                          withType e''
                            (TyView E
                               (if IndexType.isa back then usub R 1 else R)))
                 | Ret (failure, e'') => Ret (failure, e'')
                 | AssertionFailure what => AssertionFailure what
                 | NullDereference what => NullDereference what
                 end))))).
Proof.
  destruct (parseText_returns e) as ([[[viewInfo indexingInfo] types] |]
                                     & e' & Htext & _).
  2: { left. exists e'. split; [exact Htext |].
       apply parse_text_rejected. exact Htext. }
  right. exists viewInfo, indexingInfo, types, e'.
  split; [exact Htext |].
  destruct indexingInfo as [| indexing [| indexing' rest]].
  - left. split; [discriminate |].
    apply (parse_indexing_count e e' viewInfo [] types Htext). discriminate.
  - right. exists indexing. split; [reflexivity |].
    destruct types as [| front types'].
    + left. split; [reflexivity |].
      unfold parse, bind. rewrite Htext. reflexivity.
    + right.
      destruct front as [wd | | | | | E R];
        try (left; eexists; split; [reflexivity |]; split; [reflexivity |];
             apply (parse_first_type_not_view e e' viewInfo [indexing] _
                      Htext _ eq_refl eq_refl eq_refl)).
      right. destruct (back_of_nonempty (TyView E R) types') as [back Hback].
      exists E, R, back. split; [reflexivity |]. split; [exact Hback |].
      apply (parse_one_entry e e' viewInfo [indexing] _ Htext indexing E R
               back eq_refl eq_refl Hback).
  - left. split; [discriminate |].
    apply (parse_indexing_count e e' viewInfo _ types Htext). discriminate.
Qed.
End ParseCases.

(** What a successful [parse] went through. *)
Lemma parse_success_inv (P : Type) (I : OpAsmParser.Interface P)
    (e e'' : OpAsmParser.Env P) :
  SliceOp.parse e = Ret (success, e'') ->
  exists viewInfo indexing types e' e1 E R back,
    SliceOp.parseText e = Ret (Some (viewInfo, [indexing], types), e') /\
    SmallVector.front types = Ret (TyView E R) /\
    SmallVector.back types = Ret back /\
    (back = TyRange \/ back = TyIndex) /\
    SliceOp.resolveText viewInfo (TyView E R) [indexing] back e'
      = Ret (success, e1) /\
    e'' = withType e1 (TyView E (if IndexType.isa back then usub R 1 else R)).
Proof.
  intros Hparse.
  destruct (parse_cases e) as
    [(e' & _ & Hp)
    | (viewInfo & indexingInfo & types & e' & Htext &
       [[_ Hp]
       | (indexing & -> &
          [[_ Hp]
          | [(front & _ & _ & Hp)
            | (E & R & back & Hfront & Hback & Hp)]])])];
    rewrite Hp in Hparse; try discriminate.
  destruct (negb (IndexType.isa back) && negb (RangeType.isa back)) eqn:Hty;
    [discriminate |].
  destruct (SliceOp.resolveText viewInfo (TyView E R) [indexing] back e')
    as [[[|] e1] | what | what'] eqn:Hres; try discriminate.
  injection Hparse as <-.
  exists viewInfo, indexing, types, e', e1, E, R, back.
  repeat split; auto.
  destruct back; try discriminate; auto.
Qed.

(** [parse] dereferences no null handle. *)
Lemma parse_no_null_dereference (P : Type) (I : OpAsmParser.Interface P)
    (e : OpAsmParser.Env P) (what : string) :
  SliceOp.parse e <> NullDereference what.
Proof.
  intros Hparse.
  destruct (parse_cases e) as
    [(e' & Htext & Hp)
    | (viewInfo & indexingInfo & types & e' & Htext &
       [[_ Hp]
       | (indexing & -> &
          [[-> Hp]
          | [(front & _ & _ & Hp)
            | (E & R & back & Hfront & Hback & Hp)]])])];
    rewrite Hp in Hparse; try discriminate.
  destruct (negb (IndexType.isa back) && negb (RangeType.isa back));
    [discriminate |].
  destruct (resolveText_returns viewInfo indexing (TyView E R) back e')
    as (r1 & e1 & Hres & _).
  rewrite Hres in Hparse. destruct r1; discriminate.
Qed.

(** When [parse] trips an assertion. *)
Lemma parse_assertion_inv (P : Type)
    (I : OpAsmParser.Interface P) (e : OpAsmParser.Env P) (what : string) :
  SliceOp.parse e = AssertionFailure what <->
  what = "SmallVector::front on an empty vector" /\
  exists viewInfo indexing e',
    SliceOp.parseText e = Ret (Some (viewInfo, [indexing], []), e').
Proof.
  split.
  - intros Hparse.
    destruct (parse_cases e) as
      [(e' & Htext & Hp)
      | (viewInfo & indexingInfo & types & e' & Htext &
         [[_ Hp]
         | (indexing & -> &
            [[-> Hp]
            | [(front & _ & _ & Hp)
              | (E & R & back & Hfront & Hback & Hp)]])])];
      rewrite Hp in Hparse; try discriminate.
    + injection Hparse as <-. split; [reflexivity | eauto].
    + destruct (negb (IndexType.isa back) && negb (RangeType.isa back));
        [discriminate |].
      destruct (resolveText_returns viewInfo indexing (TyView E R) back e')
        as (r1 & e1 & Hres & _).
      rewrite Hres in Hparse. destruct r1; discriminate.
  - intros [-> (viewInfo & indexing & e' & Htext)].
    unfold SliceOp.parse, bind. rewrite Htext. reflexivity.
Qed.

(** X6. When the first type of the list is not a view, [parse] fails with the
    error "view type expected as first type" at the operation name; nothing
    goes to the standard-error stream and the operation state stays as the
    first statement left it.  The last type is not looked at. *)
Theorem parse_view_type_expected (P : Type) (I : OpAsmParser.Interface P)
    (e e' : OpAsmParser.Env P)
    (viewInfo indexing : OpAsmParser.OperandType) (types : list Ty)
    (front : Ty) :
  SliceOp.parseText e = Ret (Some (viewInfo, [indexing], types), e') ->
  SmallVector.front types = Ret front ->
  ViewType.isa front = false ->
  exists e'',
    SliceOp.parse e = Ret (failure, e'') /\
    diagnostics (OpAsmParser.world e'')
      = diagnostics (OpAsmParser.world e')
        ++ [mkDiagnostic (OpAsmParser.getNameLoc (OpAsmParser.parser e'))
              "view type expected as first type"] /\
    errs (OpAsmParser.world e'') = errs (OpAsmParser.world e') /\
    OpAsmParser.result e'' = OpAsmParser.result e'.
Proof.
  intros Htext Hfront Hisa.
  exists (withError e' SliceOp.msgViewExpected).
  split; [| repeat split].
  apply (parse_first_type_not_view e e' viewInfo [indexing] types Htext
           front eq_refl Hfront Hisa).
Qed.

Lemma parse_view_type_expected_witness :
  exists e'',
    SliceOp.parse (Samples.envAt (Samples.sliceText TyF32 TyIndex))
      = Ret (failure, e'') /\
    diagnostics (OpAsmParser.world e'')
      = [mkDiagnostic 0 "view type expected as first type"] /\
    errs (OpAsmParser.world e'') = [].
Proof.
  edestruct (parse_view_type_expected TokenParser.t TokenParser.interface
               (Samples.envAt (Samples.sliceText TyF32 TyIndex)))
    as (e'' & Hparse & Hdiag & Herrs & _).
  - reflexivity.
  - reflexivity.
  - reflexivity.
  - exists e''. repeat split; assumption.
Defined.

(** X7. A type list of one type never parses: [front] and [back] are then the
    same type, which cannot be both a view and a Range or an Index. *)
Theorem parse_single_type_fails (P : Type) (I : OpAsmParser.Interface P)
    (e e' : OpAsmParser.Env P) (viewInfo : OpAsmParser.OperandType)
    (indexingInfo : list OpAsmParser.OperandType) (ty : Ty) :
  SliceOp.parseText e = Ret (Some (viewInfo, indexingInfo, [ty]), e') ->
  exists message,
    SliceOp.parse e
      = Ret (failure,
             withError (if ViewType.isa ty
                           && Nat.eqb (List.length indexingInfo) 1
                        then withErrs e' ty else e') message) /\
    (message = SliceOp.msgIndexingCount \/
     message = SliceOp.msgViewExpected \/
     message = SliceOp.msgIndexingType).
Proof.
  intros Htext.
  destruct indexingInfo as [| indexing [| indexing' rest]].
  - exists SliceOp.msgIndexingCount. rewrite andb_false_r.
    split; [| auto].
    apply (parse_indexing_count e e' viewInfo [] [ty] Htext). discriminate.
  - destruct ty as [wd | | | | | E R];
      try (exists SliceOp.msgViewExpected; split; [| auto];
           apply (parse_first_type_not_view e e' viewInfo [indexing] _
                    Htext _ eq_refl eq_refl eq_refl)).
    exists SliceOp.msgIndexingType. split; [| auto].
    rewrite (parse_one_entry e e' viewInfo [indexing] _ Htext indexing E R
               (TyView E R) eq_refl eq_refl eq_refl).
    reflexivity.
  - exists SliceOp.msgIndexingCount. rewrite andb_false_r.
    split; [| auto].
    apply (parse_indexing_count e e' viewInfo _ [ty] Htext). discriminate.
Qed.

Lemma parse_single_type_fails_witness :
  exists e'',
    SliceOp.parse
      (Samples.envAt
         [tok_percent_identifier "0"; tok_l_square;
          tok_percent_identifier "i0"; tok_r_square; tok_colon;
          tok_type (TyView TyF32 2)])
    = Ret (failure, e'') /\
    errs (OpAsmParser.world e'') = [TyView TyF32 2].
Proof.
  edestruct (parse_single_type_fails TokenParser.t TokenParser.interface
               (Samples.envAt
                  [tok_percent_identifier "0"; tok_l_square;
                   tok_percent_identifier "i0"; tok_r_square; tok_colon;
                   tok_type (TyView TyF32 2)]))
    as (message & Hparse & _).
  - reflexivity.
  - eexists. split; [exact Hparse | reflexivity].
Defined.

(** X8. [parse] succeeds only on one path: one indexing entry, a first type that
    is a view, a last type that is a Range or an Index, and two operands that
    resolve; the operation state then gets one more result type, the view of
    the same element type whose rank is the parent's, less one for an
    Index. *)
Theorem parse_succeeds_only_if (P : Type) (I : OpAsmParser.Interface P)
    (e e'' : OpAsmParser.Env P) :
  SliceOp.parse e = Ret (success, e'') ->
  exists viewInfo indexing types e' e1 E R back,
    SliceOp.parseText e = Ret (Some (viewInfo, [indexing], types), e') /\
    SmallVector.front types = Ret (TyView E R) /\
    SmallVector.back types = Ret back /\
    (back = TyRange \/ back = TyIndex) /\
    SliceOp.resolveText viewInfo (TyView E R) [indexing] back e'
      = Ret (success, e1) /\
    e'' = withType e1 (TyView E (if IndexType.isa back then usub R 1 else R)).
Proof.
  intros Hparse.
  destruct (parse_cases e) as
    [(e' & _ & Hp)
    | (viewInfo & indexingInfo & types & e' & Htext &
       [[_ Hp]
       | (indexing & -> &
          [[_ Hp]
          | [(front & _ & _ & Hp)
            | (E & R & back & Hfront & Hback & Hp)]])])];
    rewrite Hp in Hparse; try discriminate.
  destruct (negb (IndexType.isa back) && negb (RangeType.isa back)) eqn:Hty;
    [discriminate |].
  destruct (SliceOp.resolveText viewInfo (TyView E R) [indexing] back e')
    as [[[|] e1] | what | what'] eqn:Hres; try discriminate.
  injection Hparse as <-.
  exists viewInfo, indexing, types, e', e1, E, R, back.
  repeat split; auto.
  destruct back; try discriminate; auto.
Qed.

Lemma parse_succeeds_only_if_witness :
  exists types E R back,
    SmallVector.front types = Ret (TyView E R) /\
    SmallVector.back types = Ret back /\
    (back = TyRange \/ back = TyIndex).
Proof.
  edestruct (parse_succeeds_only_if TokenParser.t TokenParser.interface
               (Samples.envAt (Samples.sliceText (TyView TyF32 2) TyIndex)))
    as (viewInfo & indexing & types & e' & e1 & E & R & back
        & Htext & Hfront & Hback & Hkind & _).
  - lazy. reflexivity.
  - exists types, E, R, back. auto.
Defined.

(** X9. [parse] adds a result type exactly when it succeeds: one view type then,
    none when it fails. *)
Theorem parse_adds_type_only_on_success (P : Type)
    (I : OpAsmParser.Interface P) (e e'' : OpAsmParser.Env P)
    (r : LogicalResult) :
  SliceOp.parse e = Ret (r, e'') ->
  match r with
  | success =>
      exists E rank,
        OperationState.types (OpAsmParser.result e'')
        = OperationState.types (OpAsmParser.result e) ++ [TyView E rank]
  | failure =>
      OperationState.types (OpAsmParser.result e'')
      = OperationState.types (OpAsmParser.result e)
  end.
Proof.
  intros Hparse.
  destruct (parseText_returns e) as (t & e0 & Htext0 & _ & Htypes0).
  destruct (parse_cases e) as
    [(e' & Htext & Hp)
    | (viewInfo & indexingInfo & types & e' & Htext &
       [[_ Hp]
       | (indexing & -> &
          [[_ Hp]
          | [(front & _ & _ & Hp)
            | (E & R & back & Hfront & Hback & Hp)]])])];
    rewrite Htext in Htext0; injection Htext0 as <- <-;
    rewrite Hp in Hparse; try discriminate;
    try (injection Hparse as <- <-; exact Htypes0).
  destruct (negb (IndexType.isa back) && negb (RangeType.isa back)).
  - injection Hparse as <- <-. exact Htypes0.
  - destruct (resolveText_returns viewInfo indexing (TyView E R) back e')
      as (r1 & e1 & Hres & Htypes1).
    rewrite Hres in Hparse.
    destruct r1; injection Hparse as <- <-.
    + eexists. eexists. cbn. rewrite Htypes1, Htypes0. reflexivity.
    + congruence.
Qed.

Lemma parse_adds_type_only_on_success_witness :
  (exists e'' E rank,
     SliceOp.parse
       (Samples.envAt (Samples.sliceText (TyView TyF32 2) TyIndex))
     = Ret (success, e'') /\
     OperationState.types (OpAsmParser.result e'') = [] ++ [TyView E rank]) /\
  (exists e'',
     SliceOp.parse (Samples.envAt Samples.twoEntries) = Ret (failure, e'') /\
     OperationState.types (OpAsmParser.result e'') = []).
Proof.
  split.
  - assert (Hp : exists e'',
               SliceOp.parse
                 (Samples.envAt (Samples.sliceText (TyView TyF32 2) TyIndex))
               = Ret (success, e'')) by (eexists; lazy; reflexivity).
    destruct Hp as [e'' Hp].
    destruct (parse_adds_type_only_on_success TokenParser.t
                TokenParser.interface _ e'' success Hp) as (E & rank & Ht).
    exists e'', E, rank. split; [exact Hp | exact Ht].
  - assert (Hp : exists e'',
               SliceOp.parse (Samples.envAt Samples.twoEntries)
               = Ret (failure, e'')) by (eexists; lazy; reflexivity).
    destruct Hp as [e'' Hp].
    exists e''. split; [exact Hp |].
    exact (parse_adds_type_only_on_success TokenParser.t
             TokenParser.interface _ e'' failure Hp).
Defined.

(** X10. The one assertion [parse] can trip is [front()] on an empty type list:
    [indexingInfo[0]] and [types.back()] are reached only after the entry
    count and the first type have been checked. *)
Theorem parse_asserts_only_on_empty_types (P : Type)
    (I : OpAsmParser.Interface P) (e : OpAsmParser.Env P) (what : string) :
  SliceOp.parse e = AssertionFailure what <->
  what = "SmallVector::front on an empty vector" /\
  exists viewInfo indexing e',
    SliceOp.parseText e = Ret (Some (viewInfo, [indexing], []), e').
Proof.
  split.
  - intros Hparse.
    destruct (parse_cases e) as
      [(e' & Htext & Hp)
      | (viewInfo & indexingInfo & types & e' & Htext &
         [[_ Hp]
         | (indexing & -> &
            [[-> Hp]
            | [(front & _ & _ & Hp)
              | (E & R & back & Hfront & Hback & Hp)]])])];
      rewrite Hp in Hparse; try discriminate.
    + injection Hparse as <-. split; [reflexivity | eauto].
    + destruct (negb (IndexType.isa back) && negb (RangeType.isa back));
        [discriminate |].
      destruct (resolveText_returns viewInfo indexing (TyView E R) back e')
        as (r1 & e1 & Hres & _).
      rewrite Hres in Hparse. destruct r1; discriminate.
  - intros [-> (viewInfo & indexing & e' & Htext)].
    unfold SliceOp.parse, bind. rewrite Htext. reflexivity.
Qed.

(** ** Parsing with the parser over lexemes *)

Lemma typeListTail_nonempty (n : nat) :
  forall (toks : list Token) (pos : nat) (acc tys : list Ty)
         (rest : list Token) (pos' : nat),
    (List.length toks <= n)%nat ->
    acc <> [] ->
    TokenParser.typeListTail toks pos acc = Some (tys, rest, pos') ->
    tys <> [].
Proof.
  induction n as [| n IH]; intros toks pos acc tys rest pos' Hlen Hacc Htail.
  - destruct toks; [| simpl in Hlen; lia].
    simpl in Htail. injection Htail as <- _ _. exact Hacc.
  - destruct toks as [| tok toks]; simpl in Htail.
    + injection Htail as <- _ _. exact Hacc.
    + destruct tok; try (injection Htail as <- _ _; exact Hacc).
      destruct toks as [| tok' toks']; [discriminate |].
      destruct tok'; try discriminate.
      apply (IH toks' _ _ _ _ _) in Htail; auto.
      * simpl in Hlen. lia.
      * destruct acc; discriminate.
Qed.

Lemma parseColonTypeList_nonempty (p p' : TokenParser.t) (w w' : World)
    (tys : list Ty) :
  TokenParser.parseColonTypeList p w = (Some tys, p', w') -> tys <> [].
Proof.
  unfold TokenParser.parseColonTypeList.
  destruct (TokenParser.input p) as [| tok toks]; [discriminate |].
  destruct tok; try discriminate.
  destruct toks as [| tok' toks']; [discriminate |].
  destruct tok'; try discriminate.
  destruct (TokenParser.typeListTail toks' _ [ty]) as [[[tys' rest] pos] |]
    eqn:Htail; [| discriminate].
  intros [= <- _ _].
  eapply (typeListTail_nonempty (List.length toks') toks' _ [ty] tys' rest pos
            (le_n _)); [discriminate | exact Htail].
Qed.

(** The types the first statement of [parse] delivers are those of the
    colon-type list. *)
Lemma parseText_types (P : Type) (I : OpAsmParser.Interface P)
    (e e' : OpAsmParser.Env P) (viewInfo : OpAsmParser.OperandType)
    (indexingInfo : list OpAsmParser.OperandType) (types : list Ty) :
  SliceOp.parseText e = Ret (Some (viewInfo, indexingInfo, types), e') ->
  exists p w p' w',
    OpAsmParser.parseColonTypeList p w = (Some types, p', w').
Proof.
  unfold SliceOp.parseText, bind, ret, OpAsmParser.parseOperandM,
    OpAsmParser.parseOperandListM, OpAsmParser.parseOptionalAttributeDictM,
    OpAsmParser.parseColonTypeListM.
  destruct (OpAsmParser.parseOperand (OpAsmParser.parser e)
              (OpAsmParser.world e)) as [[[v |] p1] w1]; cbn;
    [| discriminate].
  destruct (OpAsmParser.parseOperandList 1 OpAsmParser.Square p1 w1)
    as [[[ii |] p2] w2]; cbn; [| discriminate].
  destruct (OpAsmParser.parseOptionalAttributeDict
              (OperationState.attributes (OpAsmParser.result e)) p2 w2)
    as [[[[|] attrs] p3] w3]; cbn; [| discriminate].
  destruct (OpAsmParser.parseColonTypeList p3 w3) as [[[tys |] p4] w4] eqn:Hc;
    cbn; [| discriminate].
  intros [= <- <- <- <-]. eauto.
Qed.






(** X11. Every text is either parsed or rejected: with the parser over lexemes,
    [parse] trips no assertion. *)
Theorem parseOperation_returns (toks : list Token) (sc : list (string * Ty))
    (loc : Loc) (w : World) :
  exists r w', TokenParser.parseOperation toks sc loc w = Ret (r, w').
Proof.
  unfold TokenParser.parseOperation.
  destruct toks as [| tok rest]; [eauto |].
  destruct tok; eauto.
  destruct (String.eqb s SliceOp.getOperationName); [| eauto].
  destruct (SliceOp.parse _) as [[[|] e'] | what | what'] eqn:Hparse; eauto.
  - apply parse_assertion_inv in Hparse.
    destruct Hparse as [_ (viewInfo & indexing & e' & Htext)].
    apply parseText_types in Htext.
    destruct Htext as (p & w1 & p' & w' & Hcolon).
    apply parseColonTypeList_nonempty in Hcolon. congruence.
  - apply parse_no_null_dereference in Hparse. contradiction.
Qed.

Lemma token_resolveOperandM (operand : OpAsmParser.OperandType) (type : Ty)
    (e e' : OpAsmParser.Env TokenParser.t) :
  OpAsmParser.resolveOperandM operand type e = Ret (success, e') ->
  OperationState.operands (OpAsmParser.result e')
    = OperationState.operands (OpAsmParser.result e)
      ++ [Value.mk (OpAsmParser.name operand) type] /\
  OperationState.types (OpAsmParser.result e')
    = OperationState.types (OpAsmParser.result e).
Proof.
  unfold OpAsmParser.resolveOperandM. cbn [OpAsmParser.resolveOperand
    TokenParser.interface].
  unfold TokenParser.resolveOperand.
  destruct (TokenParser.lookupScope _ _) as [ty |].
  - destruct (Ty_eqb ty type); intros [= <-]; auto.
  - intros [= <-]. auto.
Qed.

(** X12. What the parser over lexemes accepts is a slice of a view by a Range or
    an Index: two operands of these types, one result type given by the
    rule, and [isRankDecreasing] telling an Index from a Range. *)
Theorem parsed_slice_shape (toks : list Token) (sc : list (string * Ty))
    (loc : Loc) (w w' : World) (op : Operation.t) :
  TokenParser.parseOperation toks sc loc w = Ret (Some op, w') ->
  exists parent indexing E R,
    Operation.getOperands op = [parent; indexing] /\
    Value.getType parent = TyView E R /\
    (Value.getType indexing = TyRange \/ Value.getType indexing = TyIndex) /\
    Operation.getResultTypes op
      = [TyView E (if IndexType.isa (Value.getType indexing)
                   then usub R 1 else R)] /\
    SliceOp.getElementType op = Ret E /\
    SliceOp.isRankDecreasing op
      = Ret (IndexType.isa (Value.getType indexing)).
Proof.
  unfold TokenParser.parseOperation.
  destruct toks as [| tok rest]; [discriminate |].
  destruct tok; try discriminate.
  destruct (String.eqb s SliceOp.getOperationName); [| discriminate].
  set (e := OpAsmParser.mkEnv _ _ _).
  destruct (SliceOp.parse e) as [[[|] e''] | what | what'] eqn:Hparse;
    try discriminate.
  intros [= <- _].
  destruct (parseText_returns e) as (t & e0 & Htext0 & Hops0 & Htypes0).
  apply parse_success_inv in Hparse.
  destruct Hparse as (viewInfo & indexing & types & e' & e1 & E & R & back
                      & Htext & _ & _ & Hkind & Hres & ->).
  rewrite Htext in Htext0. injection Htext0 as <- <-.
  unfold SliceOp.resolveText, bind in Hres.
  destruct (OpAsmParser.resolveOperandM viewInfo (TyView E R) e')
    as [[[|] ea] | what | what'] eqn:Hr1; try discriminate.
  cbn in Hres. unfold bind in Hres.
  destruct (OpAsmParser.resolveOperandM indexing back ea)
    as [[[|] eb] | what | what'] eqn:Hr2; try discriminate.
  injection Hres as <-.
  apply token_resolveOperandM in Hr1, Hr2.
  destruct Hr1 as [Hopsa Htypesa]. destruct Hr2 as [Hopsb Htypesb].
  exists (Value.mk (OpAsmParser.name viewInfo) (TyView E R)),
         (Value.mk (OpAsmParser.name indexing) back), E, R.
  assert (Hoperands :
            Operation.getOperands (Operation.create loc
                                     (OpAsmParser.result (withType eb
                                        (TyView E (if IndexType.isa back
                                                   then usub R 1 else R)))))
            = [Value.mk (OpAsmParser.name viewInfo) (TyView E R);
               Value.mk (OpAsmParser.name indexing) back]).
  { cbn. rewrite Hopsb, Hopsa, Hops0. reflexivity. }
  assert (Hresults :
            Operation.getResultTypes (Operation.create loc
                                     (OpAsmParser.result (withType eb
                                        (TyView E (if IndexType.isa back
                                                   then usub R 1 else R)))))
            = [TyView E (if IndexType.isa back then usub R 1 else R)]).
  { cbn. rewrite Htypesb, Htypesa, Htypes0. reflexivity. }
  split; [exact Hoperands |]. split; [reflexivity |].
  split; [exact Hkind |]. split; [exact Hresults |].
  unfold SliceOp.getElementType, SliceOp.isRankDecreasing,
    SliceOp.getParentRank, SliceOp.getRank, SliceOp.getViewType,
    SliceOp.getParentViewType, SliceOp.getParentView, Operation.getOperand,
    Operation.getType.
  rewrite Hoperands, Hresults. cbn.
  split; [reflexivity |].
  destruct Hkind as [-> | ->]; cbn.
  - rewrite Z.eqb_refl. reflexivity.
  - replace (R =? usub R 1) with false; [reflexivity |].
    symmetry. apply Z.eqb_neq. pose proof (usub_changes R). congruence.
Qed.

Lemma parsed_slice_shape_witness :
  exists parent indexing E R,
    Operation.getOperands Samples.taggedSlice = [parent; indexing] /\
    Value.getType parent = TyView E R /\
    (Value.getType indexing = TyRange \/ Value.getType indexing = TyIndex) /\
    Operation.getResultTypes Samples.taggedSlice
      = [TyView E (if IndexType.isa (Value.getType indexing)
                   then usub R 1 else R)] /\
    SliceOp.getElementType Samples.taggedSlice = Ret E /\
    SliceOp.isRankDecreasing Samples.taggedSlice
      = Ret (IndexType.isa (Value.getType indexing)).
Proof.
  apply (parsed_slice_shape Samples.taggedText Samples.scope0 0 Samples.w0
           Samples.w0 Samples.taggedSlice).
  lazy. reflexivity.
Defined.

(** ** Printing *)

(** The text of an instance with two operands or more, a view as operand 0
    and an integer [dim]: the fixed part, then the attributes other than
    [dim] in a dictionary of their own when there are any, then the types. *)
Lemma printed_form (op : Operation.t) (parent indexing : Value.t)
    (rest : list Value.t) (E : Ty) (R : Z) (ty : Ty) (v : Z) :
  Operation.getOperands op = parent :: indexing :: rest ->
  Value.getType parent = TyView E R ->
  Operation.getAttr op "dim" = Some (IntegerAttr ty v) ->
  SliceOp.printed op =
    Ret ([tok_bare_identifier "linalg.slice";
          tok_percent_identifier (Value.name parent); tok_l_square;
          tok_percent_identifier (Value.name indexing); tok_r_square;
          tok_l_brace; tok_bare_identifier "dim"; tok_equal; tok_integer v;
          tok_r_brace]
         ++ match filter (fun na => negb (OpAsmPrinter.isElided ["dim"] na))
                    (Operation.getAttrs op) with
            | [] => []
            | shown =>
                [tok_l_brace] ++ OpAsmPrinter.printNamedAttributes shown
                ++ [tok_r_brace]
            end
         ++ [tok_colon; tok_type (TyView E R); tok_comma;
             tok_type (Value.getType indexing)]).
Proof.
  intros Hops Hview Hattr.
  unfold SliceOp.printed, SliceOp.print, omap, andThen, bind, eval,
    OpAsmPrinter.emit, OpAsmPrinter.printOperand, OpAsmPrinter.printType,
    OpAsmPrinter.printInt, OpAsmPrinter.printOptionalAttrDict, modify, ret,
    SliceOp.getParentViewType, SliceOp.getParentView, SliceOp.getIndexing,
    Operation.getOperand, Operation.getIntegerAttrInt, ViewType.cast,
    andThen.
  rewrite Hops, Hattr. cbn [nth_error dyn_cast_IntegerAttr]. rewrite Hview.
  cbn [ViewType.dyn_cast].
  destruct (filter _ (Operation.getAttrs op)) as [| na shown].
  - reflexivity.
  - set (dict := OpAsmPrinter.printNamedAttributes (na :: shown)).
    unfold OpAsmPrinter.emit, modify. cbn.
    rewrite <- ?app_assoc. reflexivity.
Qed.

(** When [print] runs to its end. *)
Lemma print_returns_when (op : Operation.t) :
  (exists toks, SliceOp.printed op = Ret toks) <->
  (exists parent indexing rest E R ty v,
     Operation.getOperands op = parent :: indexing :: rest /\
     Value.getType parent = TyView E R /\
     Operation.getAttr op SliceOp.getSlicingDimAttrName
       = Some (IntegerAttr ty v)).
Proof.
  split.
  - intros [toks Hprint].
    revert Hprint.
    unfold SliceOp.printed, SliceOp.print, omap, andThen, bind, eval,
      OpAsmPrinter.emit, OpAsmPrinter.printOperand, OpAsmPrinter.printType,
      OpAsmPrinter.printInt, OpAsmPrinter.printOptionalAttrDict, modify, ret,
      SliceOp.getParentViewType, SliceOp.getParentView, SliceOp.getIndexing,
      Operation.getOperand, Operation.getIntegerAttrInt, ViewType.cast,
      andThen.
    change (Operation.getAttr op "dim")
      with (Operation.getAttr op SliceOp.getSlicingDimAttrName).
    destruct (Operation.getOperands op) as [| parent [| indexing rest]];
      cbn [nth_error]; try discriminate.
    destruct (Operation.getAttr op SliceOp.getSlicingDimAttrName)
      as [[ty v | s] |]; cbn [dyn_cast_IntegerAttr]; try discriminate.
    destruct (Value.getType parent) as [wd | | | | | E R] eqn:Hview;
      cbn [ViewType.dyn_cast];
      try (destruct (filter _ (Operation.getAttrs op)); discriminate).
    intros _. exists parent, indexing, rest, E, R, ty, v. auto.
  - intros (parent & indexing & rest & E & R & ty & v & Hops & Hview & Hattr).
    rewrite (printed_form op parent indexing rest E R ty v Hops Hview Hattr).
    eauto.
Qed.

(** X13. [print] runs to its end, and so writes the whole text, exactly when
    the instance has two operands or more, a view as operand 0 and an integer
    [dim].  On any other instance an accessor stops it on the way: with
    fewer than two operands [getOperand] asserts; else, with [dim] missing or
    not an integer attribute, [getInt()] dereferences a null attribute;
    else, with an operand 0 that is not a view, the cast in
    [getParentViewType] asserts. *)
Theorem print_returns_iff (op : Operation.t) :
  ((exists toks, SliceOp.printed op = Ret toks) <->
   (exists parent indexing rest E R ty v,
      Operation.getOperands op = parent :: indexing :: rest /\
      Value.getType parent = TyView E R /\
      Operation.getAttr op SliceOp.getSlicingDimAttrName
        = Some (IntegerAttr ty v))) /\
  (nth_error (Operation.getOperands op) 1 = None ->
   SliceOp.printed op = AssertionFailure "getOperand: index out of range") /\
  (forall indexing,
      nth_error (Operation.getOperands op) 1 = Some indexing ->
      (forall ty v,
          Operation.getAttr op SliceOp.getSlicingDimAttrName
            <> Some (IntegerAttr ty v)) ->
      SliceOp.printed op
        = NullDereference "IntegerAttr::getInt on a null attribute") /\
  (forall parent indexing ty v,
      nth_error (Operation.getOperands op) 0 = Some parent ->
      nth_error (Operation.getOperands op) 1 = Some indexing ->
      Operation.getAttr op SliceOp.getSlicingDimAttrName
        = Some (IntegerAttr ty v) ->
      ViewType.isa (Value.getType parent) = false ->
      SliceOp.printed op = AssertionFailure "cast<ViewType>").
Proof.
  split; [apply print_returns_when |].
  unfold SliceOp.printed, SliceOp.print, omap, andThen, bind, eval,
    OpAsmPrinter.emit, OpAsmPrinter.printOperand, OpAsmPrinter.printType,
    OpAsmPrinter.printInt, OpAsmPrinter.printOptionalAttrDict, modify, ret,
    SliceOp.getParentViewType, SliceOp.getParentView, SliceOp.getIndexing,
    Operation.getOperand, Operation.getIntegerAttrInt, ViewType.cast,
    andThen.
  change (Operation.getAttr op "dim")
    with (Operation.getAttr op SliceOp.getSlicingDimAttrName).
  split; [| split].
  - destruct (Operation.getOperands op) as [| parent [| indexing rest]];
      cbn [nth_error]; [reflexivity | reflexivity | discriminate].
  - intros indexing.
    destruct (Operation.getOperands op) as [| parent [| indexing' rest]];
      cbn [nth_error]; try discriminate.
    intros _ Hattr.
    destruct (Operation.getAttr op SliceOp.getSlicingDimAttrName)
      as [[ty v | s] |]; [| reflexivity | reflexivity].
    exfalso. apply (Hattr ty v). reflexivity.
  - intros parent indexing ty v.
    destruct (Operation.getOperands op) as [| parent' [| indexing' rest]];
      cbn [nth_error]; try discriminate.
    intros [= ->] _ Hattr Hisa. rewrite Hattr.
    cbn [dyn_cast_IntegerAttr].
    unfold ViewType.isa in Hisa.
    destruct (ViewType.dyn_cast (Value.getType parent));
      [discriminate |].
    destruct (filter _ (Operation.getAttrs op)); reflexivity.
Qed.

Lemma print_returns_iff_witness :
  SliceOp.printed (Operation.mk 0 [Samples.view2] [Samples.dimAttr 0] [])
    = AssertionFailure "getOperand: index out of range" /\
  SliceOp.printed (Operation.mk 0 [Samples.view2; Samples.i0] [] [])
    = NullDereference "IntegerAttr::getInt on a null attribute" /\
  SliceOp.printed Samples.notAViewSlice = AssertionFailure "cast<ViewType>".
Proof.
  split; [| split].
  - apply (proj1 (proj2 (print_returns_iff
                           (Operation.mk 0 [Samples.view2]
                              [Samples.dimAttr 0] [])))).
    reflexivity.
  - apply (proj1 (proj2 (proj2 (print_returns_iff
                                  (Operation.mk 0 [Samples.view2; Samples.i0]
                                     [] [])))) Samples.i0).
    + reflexivity.
    + intros ty v. discriminate.
  - apply (proj2 (proj2 (proj2 (print_returns_iff Samples.notAViewSlice)))
             Samples.x0 Samples.i0 TyIndex 0); reflexivity.
Defined.

Lemma shown_attributes (attrs : list NamedAttribute) :
  (exists na, In na attrs /\ fst na <> "dim") ->
  filter (fun na => negb (OpAsmPrinter.isElided ["dim"] na)) attrs <> [].
Proof.
  intros (na & Hin & Hname) Hnil.
  assert (Hf : In na (filter (fun na => negb (OpAsmPrinter.isElided ["dim"] na))
                        attrs)).
  { apply filter_In. split; [exact Hin |].
    unfold OpAsmPrinter.isElided. cbn [existsb].
    rewrite orb_false_r. apply negb_true_iff, String.eqb_neq. exact Hname. }
  rewrite Hnil in Hf. exact Hf.
Qed.

(** X14. The text of any instance that carries an attribute named otherwise than
    [dim] is rejected by [parse]: after the dictionary that holds [dim] it
    meets a second dictionary where it wants the colon. *)
Theorem print_parse_rejects_other_attributes (op : Operation.t)
    (parent indexing : Value.t) (rest : list Value.t) (E : Ty) (R : Z)
    (ty : Ty) (v : Z) (sc : list (string * Ty)) (loc : Loc) (w : World) :
  Operation.getOperands op = parent :: indexing :: rest ->
  Value.getType parent = TyView E R ->
  Operation.getAttr op SliceOp.getSlicingDimAttrName
    = Some (IntegerAttr ty v) ->
  (exists na, In na (Operation.getAttrs op) /\ fst na <> "dim") ->
  exists toks,
    SliceOp.printed op = Ret toks /\
    TokenParser.parseOperation toks sc loc w
      = Ret (None, emitDiagnostic 10 "expected ':'" w).
Proof.
  intros Hops Hview Hattr Hother.
  rewrite (printed_form op parent indexing rest E R ty v Hops Hview Hattr).
  apply shown_attributes in Hother.
  destruct (filter _ (Operation.getAttrs op)) as [| na shown];
    [congruence |].
  eexists. split; [reflexivity |].
  reflexivity.
Qed.

Lemma print_parse_rejects_other_attributes_witness :
  exists toks,
    SliceOp.printed Samples.taggedSlice = Ret toks /\
    TokenParser.parseOperation toks Samples.scope0 0 Samples.w0
      = Ret (None, emitDiagnostic 10 "expected ':'" Samples.w0).
Proof.
  apply (print_parse_rejects_other_attributes Samples.taggedSlice
           Samples.view2 Samples.i0 [] TyF32 2 (TyInteger 64) 0
           Samples.scope0 0%nat Samples.w0); try reflexivity.
  exists ("tag", IntegerAttr (TyInteger 64) 7).
  split; [right; left; reflexivity | discriminate].
Defined.

(** X16. Printing is stable under parsing: for a valid instance that carries only
    [dim], the instance [parse] reads back prints to the same text. *)
Theorem print_parse_print (op : Operation.t) (sc : list (string * Ty))
    (loc : Loc) (w : World) :
  Spec.valid op ->
  (forall na, In na (Operation.getAttrs op) -> fst na = "dim") ->
  Forall (Spec.inScope sc) (Operation.getOperands op) ->
  exists toks op',
    SliceOp.printed op = Ret toks /\
    TokenParser.parseOperation toks sc loc w = Ret (Some op', w) /\
    SliceOp.printed op' = Ret toks.
Proof.
  intros (parent & indexing & E & R & T & Hops & Hview & Hwf & Hchecks
          & Hrule & Hresults) Honly Hscope.
  rewrite Hops in Hscope.
  pose proof (Forall_inv Hscope) as Hparent.
  pose proof (Forall_inv (Forall_inv_tail Hscope)) as Hindexing.
  unfold Spec.inScope in Hparent, Hindexing. rewrite Hview in Hparent.
  unfold Spec.checks in Hchecks. rewrite Hops in Hchecks.
  destruct (Operation.getAttr op SliceOp.getSlicingDimAttrName)
    as [[ty v | s] |] eqn:Hattr; try discriminate.
  cbn [nth_error] in Hchecks. rewrite Hview in Hchecks.
  apply andb_true_iff in Hchecks. destruct Hchecks as [_ Hidx].
  apply isa_range_or_index in Hidx.
  eexists. eexists. split; [| split].
  - apply (printed_slice op parent indexing [] E R ty v Hops Hview Hattr Honly).
  - apply (parse_printed_slice _ _ E R v _ sc loc w Hidx Hparent Hindexing).
  - apply (printed_slice _ (Value.mk (Value.name parent) (TyView E R))
             (Value.mk (Value.name indexing) (Value.getType indexing)) []
             E R (TyInteger 64) v); try reflexivity.
    intros na [<- | []]. reflexivity.
Qed.

Lemma print_parse_print_witness :
  exists toks op',
    SliceOp.printed Samples.rangeSlice = Ret toks /\
    TokenParser.parseOperation toks Samples.scope0 0 Samples.w0
      = Ret (Some op', Samples.w0) /\
    SliceOp.printed op' = Ret toks.
Proof.
  apply (print_parse_print Samples.rangeSlice Samples.scope0 0 Samples.w0).
  - exists Samples.view2, Samples.r0, TyF32, 2, (TyView TyF32 2).
    repeat split.
  - intros na [<- | []]. reflexivity.
  - repeat constructor.
Defined.

(** X17. What [build] constructs, [print] writes and [parse] reads back, whether
    or not [verify] would accept it: the operands, the value of [dim] and the
    result type are those [build] set, for any rank and any [dim]. *)
Theorem build_print_parse (b : Builder.t) (view indexing : Value.t)
    (dim : Z) (E : Ty) (R : Z) (sc : list (string * Ty)) (loc : Loc)
    (w : World) :
  Value.getType view = TyView E R ->
  Value.getType indexing = TyRange \/ Value.getType indexing = TyIndex ->
  Spec.inScope sc view ->
  Spec.inScope sc indexing ->
  exists st toks op',
    SliceOp.build b view indexing dim OperationState.empty = Ret (tt, st) /\
    SliceOp.printed (Operation.create loc st) = Ret toks /\
    TokenParser.parseOperation toks sc loc w = Ret (Some op', w) /\
    Operation.getOperands op' = OperationState.operands st /\
    Operation.getResultTypes op' = OperationState.types st /\
    Spec.dimValue op' = Some dim /\
    Spec.dimValue (Operation.create loc st) = Some dim.
Proof.
  intros Hview Hidx Hsview Hsindexing.
  unfold Spec.inScope in Hsview, Hsindexing. rewrite Hview in Hsview.
  rewrite (build_on_view b view indexing dim _ E R Hview).
  set (T := TyView E (if IndexType.isa (Value.getType indexing)
                      then usub R 1 else R)).
  exists (built OperationState.empty view indexing dim T).
  eexists. eexists.
  split.
  { subst T. destruct Hidx as [-> | ->]; reflexivity. }
  split.
  { apply (printed_slice _ view indexing [] E R TyIndex dim);
      try reflexivity; auto.
    intros na [<- | []]. reflexivity. }
  split.
  { apply (parse_printed_slice _ _ E R dim _ sc loc w Hidx Hsview
             Hsindexing). }
  cbn. destruct view as [vname vty], indexing as [iname ity].
  cbn in *. subst vty. repeat split.
Qed.

Lemma build_print_parse_witness :
  exists st toks op',
    SliceOp.build Samples.b0 Samples.view0 Samples.i0 7 OperationState.empty
      = Ret (tt, st) /\
    SliceOp.printed (Operation.create 0 st) = Ret toks /\
    TokenParser.parseOperation toks Samples.scope0 0 Samples.w0
      = Ret (Some op', Samples.w0) /\
    Operation.getOperands op' = OperationState.operands st /\
    Operation.getResultTypes op' = OperationState.types st /\
    Spec.dimValue op' = Some 7 /\
    Spec.dimValue (Operation.create 0 st) = Some 7.
Proof.
  apply (build_print_parse Samples.b0 Samples.view0 Samples.i0 7 TyF32 0
           Samples.scope0 0%nat Samples.w0).
  - reflexivity.
  - right. reflexivity.
  - reflexivity.
  - reflexivity.
Defined.
